(** * Boat and cart-pole simulators: a shallow embedding and its properties

    Source files embedded here:
      - [Project 3 Boat/simulator/boat.py]          (Module [boat])
      - [Project 5 HardPole/ForceControl/cartpole.py] (Module [cartpole])

    Conventions of the embedding.
      - A Python/NumPy float is idealised as a real number ([R]); [np.pi],
        [np.sin], [np.cos] are [PI], [sin], [cos].  Rounding, infinities
        and NaN are outside the model, and so is a zero divisor (which in
        the source raises [ZeroDivisionError] on Python floats and gives
        inf or nan on NumPy floats): the statements about when [dynamics]
        returns carry the hypothesis that mass and inertia are non-zero,
        and bounds on the wrapped angle are stated for the closed
        interval, which the rounded remainder also respects.
      - A one-dimensional [np.ndarray] (or Python list) is a [list R]; a
        two-dimensional array is the list of its rows.
      - A Python exception is a value of [exn]; code that may raise returns a
        [result]; a method that mutates [self] is a function from the object
        before the call to the outcome paired with the object after it, so a
        partial mutation before a [raise] stays visible. *)

From Stdlib Require Import Reals Lra Lia List PeanoNat ZArith.
Import ListNotations.

Open Scope R_scope.

(* ================================================================== *)
(** ** Python runtime: exceptions, indexing, in-place methods          *)
(* ================================================================== *)

Module py.

Inductive exn : Type :=
| ValueError
| IndexError
| NotImplementedError.

Inductive result (A : Type) : Type :=
| Ok (a : A)
| Raise (e : exn).

Arguments Ok {A} a.
Arguments Raise {A} e.

Definition bind {A B : Type} (m : result A) (k : A -> result B) : result B :=
  match m with
  | Ok a => k a
  | Raise e => Raise e
  end.

(** A method with receiver of type [S]: the outcome and the receiver after
    the call. *)
Definition Method (S A : Type) : Type := S -> result A * S.

Definition mret {S A : Type} (a : A) : Method S A := fun self => (Ok a, self).

Definition mbind {S A B : Type} (m : Method S A) (k : A -> Method S B)
  : Method S B :=
  fun self =>
    match m self with
    | (Ok a, self') => k a self'
    | (Raise e, self') => (Raise e, self')
    end.

Definition throw {S A : Type} (e : exn) : Method S A :=
  fun self => (Raise e, self).

(** Evaluate an expression that may raise but does not touch [self]. *)
Definition lift {S A : Type} (r : result A) : Method S A :=
  fun self => (r, self).

(** Read [self]. *)
Definition this {S : Type} : Method S S := fun self => (Ok self, self).

(** Attribute assignment [self.f = ...], given as the new receiver. *)
Definition assign {S : Type} (f : S -> S) : Method S unit :=
  fun self => (Ok tt, f self).

(** Run a method of the attribute object [get self] in place. *)
Definition on_attr {S T A : Type} (get : S -> T) (set : S -> T -> S)
  (m : Method T A) : Method S A :=
  fun self => let (r, t') := m (get self) in (r, set self t').

(** [arr[i]] for a constant index [i >= 0]. *)
Definition getitem {A : Type} (arr : list A) (i : nat) : result A :=
  match nth_error arr i with
  | Some a => Ok a
  | None => Raise IndexError
  end.

(** [arr[i] = v] for a constant index [i >= 0]. *)
Fixpoint setitem {A : Type} (arr : list A) (i : nat) (v : A)
  : result (list A) :=
  match arr, i with
  | [], _ => Raise IndexError
  | _ :: tl, O => Ok (v :: tl)
  | a :: tl, S j => bind (setitem tl j v) (fun tl' => Ok (a :: tl'))
  end.

(** [a % b] on floats: the remainder takes the sign of the divisor.  This
    is the exact floor remainder, in [0, b) for [b > 0]; the rounded float
    remainder can also return [b] itself. *)
Definition float_mod (a b : R) : R := a - IZR (Zfloor (a / b)) * b.

End py.

Import py.

Declare Scope py_scope.
Delimit Scope py_scope with py.

Notation "x <- m ;; k" := (bind m (fun x => k))
  (at level 61, m at next level, right associativity) : py_scope.
Notation "x <~ m ;; k" := (mbind m (fun x => k))
  (at level 61, m at next level, right associativity) : py_scope.
Notation "m ;;; k" := (mbind m (fun _ => k))
  (at level 61, right associativity) : py_scope.

Open Scope py_scope.

(* ================================================================== *)
(** ** boat.py                                                         *)
(* ================================================================== *)

Module boat.

(** [@dataclass class BoatState] *)
Record BoatState : Type := mkBoatState {
  x : R;
  y : R;
  psi : R;
  Vx : R;
  Vy : R;
  omega : R;
  adapt_param1 : R;
  adapt_param2 : R
}.

Definition set_x (s : BoatState) (v : R) : BoatState :=
  mkBoatState v (y s) (psi s) (Vx s) (Vy s) (omega s)
              (adapt_param1 s) (adapt_param2 s).
Definition set_y (s : BoatState) (v : R) : BoatState :=
  mkBoatState (x s) v (psi s) (Vx s) (Vy s) (omega s)
              (adapt_param1 s) (adapt_param2 s).
Definition set_psi (s : BoatState) (v : R) : BoatState :=
  mkBoatState (x s) (y s) v (Vx s) (Vy s) (omega s)
              (adapt_param1 s) (adapt_param2 s).
Definition set_Vx (s : BoatState) (v : R) : BoatState :=
  mkBoatState (x s) (y s) (psi s) v (Vy s) (omega s)
              (adapt_param1 s) (adapt_param2 s).
Definition set_Vy (s : BoatState) (v : R) : BoatState :=
  mkBoatState (x s) (y s) (psi s) (Vx s) v (omega s)
              (adapt_param1 s) (adapt_param2 s).
Definition set_omega (s : BoatState) (v : R) : BoatState :=
  mkBoatState (x s) (y s) (psi s) (Vx s) (Vy s) v
              (adapt_param1 s) (adapt_param2 s).
Definition set_adapt_param1 (s : BoatState) (v : R) : BoatState :=
  mkBoatState (x s) (y s) (psi s) (Vx s) (Vy s) (omega s)
              v (adapt_param2 s).
Definition set_adapt_param2 (s : BoatState) (v : R) : BoatState :=
  mkBoatState (x s) (y s) (psi s) (Vx s) (Vy s) (omega s)
              (adapt_param1 s) v.

(** [BoatState.from_array] *)
Definition from_array (arr : list R) : result BoatState :=
  if negb (length arr =? 8)%nat then Raise ValueError
  else
    a0 <- getitem arr 0 ;; a1 <- getitem arr 1 ;;
    a2 <- getitem arr 2 ;; a3 <- getitem arr 3 ;;
    a4 <- getitem arr 4 ;; a5 <- getitem arr 5 ;;
    a6 <- getitem arr 6 ;; a7 <- getitem arr 7 ;;
    Ok (mkBoatState a0 a1 a2 a3 a4 a5 a6 a7).

(** [BoatState.to_array] *)
Definition to_array (self : BoatState) : list R :=
  [x self; y self; psi self; Vx self; Vy self; omega self;
   adapt_param1 self; adapt_param2 self].

(** [BoatState._wrap_angle] *)
Definition _wrap_angle (angle : R) : R :=
  float_mod (angle + PI) (2 * PI) - PI.

(** [BoatState.update]: the statements of the source, one per line. *)
Definition update (derivatives : list R) (dt : R) : Method BoatState unit :=
  if negb (length derivatives =? 8)%nat then throw ValueError
  else
    d <~ lift (getitem derivatives 0) ;;
    assign (fun self => set_x self (x self + d * dt)) ;;;
    d <~ lift (getitem derivatives 1) ;;
    assign (fun self => set_y self (y self + d * dt)) ;;;
    d <~ lift (getitem derivatives 2) ;;
    assign (fun self => set_psi self (psi self + d * dt)) ;;;
    assign (fun self => set_psi self (_wrap_angle (psi self))) ;;;
    d <~ lift (getitem derivatives 3) ;;
    assign (fun self => set_Vx self (Vx self + d * dt)) ;;;
    d <~ lift (getitem derivatives 4) ;;
    assign (fun self => set_Vy self (Vy self + d * dt)) ;;;
    d <~ lift (getitem derivatives 5) ;;
    assign (fun self => set_omega self (omega self + d * dt)) ;;;
    d <~ lift (getitem derivatives 6) ;;
    assign (fun self =>
              set_adapt_param1 self (adapt_param1 self + d * dt)) ;;;
    d <~ lift (getitem derivatives 7) ;;
    assign (fun self =>
              set_adapt_param2 self (adapt_param2 self + d * dt)).

(** [@dataclass class BoatParameters]; [damping] is a Python list. *)
Record BoatParameters : Type := mkBoatParameters {
  mass : R;
  inertia : R;
  damping : list R;
  L : R;
  air_density : R;
  sail_Cx : R;
  sail_Cy : R;
  sail_area : R
}.

(** Modelled from the spec: the interface [wind_generator.IWindField], whose
    module is not among the sources.  Its one operation maps a global
    position [[x, y]] to the global wind velocity [[Vx_wind, Vy_wind]]. *)
Record IWindField : Type := mkWindField {
  get_wind : list R -> R * R
}.

(** The three classes [Boat], [DifferentialThrustBoat(Boat)] and
    [SteerableThrustBoat(Boat)] differ only in [dynamics]. *)
Inductive BoatClass : Type :=
| BaseBoat
| DifferentialThrustBoat
| SteerableThrustBoat.

(** An instance: its class and the attributes set by [Boat.__init__];
    [wind_field = None] is the absent collaborator. *)
Record Boat : Type := mkBoat {
  class_of : BoatClass;
  state : BoatState;
  params : BoatParameters;
  wind_field : option IWindField
}.

Definition set_state (b : Boat) (s : BoatState) : Boat :=
  mkBoat (class_of b) s (params b) (wind_field b).

(** [Boat._kinematics] *)
Definition _kinematics (self : Boat) (Fx Fy M : R) : result (list R) :=
  let st := state self in
  let p := params self in
  let dx := Vx st * cos (psi st) - Vy st * sin (psi st) in
  let dy := Vx st * sin (psi st) + Vy st * cos (psi st) in
  let dpsi := omega st in
  let '(F_sail_x, F_sail_y) :=
    match wind_field self with
    | None => (0, 0)
    | Some wf =>
        let '(V_wx_global, V_wy_global) := get_wind wf [x st; y st] in
        let V_wx_body :=
          cos (psi st) * V_wx_global + sin (psi st) * V_wy_global in
        let V_wy_body :=
          - sin (psi st) * V_wx_global + cos (psi st) * V_wy_global in
        let V_aw_x := V_wx_body - Vx st in
        let V_aw_y := V_wy_body - Vy st in
        let Wind_Force := 0.5 * air_density p * sail_area p in
        (Wind_Force * sail_Cx p * V_aw_x, Wind_Force * sail_Cy p * V_aw_y)
    end in
  D0 <- getitem (damping p) 0 ;;
  let dVx := ((Fx + F_sail_x) / mass p) - D0 * Vx st in
  D1 <- getitem (damping p) 1 ;;
  let dVy := ((Fy + F_sail_y) / mass p) - D1 * Vy st in
  D2 <- getitem (damping p) 2 ;;
  let domega := (M / inertia p) - D2 * omega st in
  Ok [dx; dy; dpsi; dVx; dVy; domega].

(** [Boat.dynamics] *)
Definition Boat_dynamics (self : Boat) (control : list R) : result (list R) :=
  Raise NotImplementedError.

(** [DifferentialThrustBoat.dynamics] *)
Definition DifferentialThrustBoat_dynamics (self : Boat) (control : list R)
  : result (list R) :=
  c0 <- getitem control 0 ;; c1 <- getitem control 1 ;;
  let Fx := c0 + c1 in
  let Fy := 0 in
  c1' <- getitem control 1 ;; c0' <- getitem control 0 ;;
  let M := L (params self) * (c1' - c0') in
  _kinematics self Fx Fy M.

(** [SteerableThrustBoat.dynamics] *)
Definition SteerableThrustBoat_dynamics (self : Boat) (control : list R)
  : result (list R) :=
  thrust <- getitem control 0 ;; theta <- getitem control 1 ;;
  let Fx := thrust * cos theta in
  let Fy := thrust * sin theta in
  let M := thrust * L (params self) * sin theta in
  _kinematics self Fx Fy M.

(** [self.dynamics(control)]: method resolution by the instance's class. *)
Definition dynamics (self : Boat) (control : list R) : result (list R) :=
  match class_of self with
  | BaseBoat => Boat_dynamics self control
  | DifferentialThrustBoat => DifferentialThrustBoat_dynamics self control
  | SteerableThrustBoat => SteerableThrustBoat_dynamics self control
  end.

(** [Boat.update_state] *)
Definition update_state (control adaptation_derivatives : list R) (dt : R)
  : Method Boat unit :=
  self <~ this ;;
  dyn <~ lift (dynamics self control) ;;
  let derivatives := dyn ++ adaptation_derivatives in
  on_attr state set_state (update derivatives dt).

(** A simulation driver: one [update_state] call per input, in order; the
    first exception ends the run.  The trajectory is the list of states
    reached after the calls that returned. *)
Fixpoint trajectory (steps : list (list R * list R * R)) (b : Boat)
  : list BoatState :=
  match steps with
  | [] => []
  | (control, adaptation_derivatives, dt) :: rest =>
      match update_state control adaptation_derivatives dt b with
      | (Ok _, b') => state b' :: trajectory rest b'
      | (Raise _, _) => []
      end
  end.

End boat.

(* ================================================================== *)
(** ** NumPy operations used by cartpole.py                            *)
(* ================================================================== *)

Module np.

(** [np.clip(a, a_min, a_max)], that is
    [np.minimum(a_max, np.maximum(a, a_min))]. *)
Definition clip (a a_min a_max : R) : R := Rmin a_max (Rmax a a_min).

Fixpoint map2 (f : R -> R -> R) (u v : list R) : list R :=
  match u, v with
  | a :: u', b :: v' => f a b :: map2 f u' v'
  | _, _ => []
  end.

(** An element-wise binary operation on two one-dimensional arrays, with
    NumPy's broadcasting rule: equal lengths, or one operand of length 1;
    any other pair of shapes raises [ValueError]. *)
Definition broadcast (f : R -> R -> R) (u v : list R) : result (list R) :=
  if (length u =? length v)%nat then Ok (map2 f u v)
  else
    match u, v with
    | [a], _ => Ok (map (fun b => f a b) v)
    | _, [b] => Ok (map (fun a => f a b) u)
    | _, _ => Raise ValueError
    end.

(** A scalar with an array, and an array with a scalar. *)
Definition scalar_l (f : R -> R -> R) (a : R) (v : list R) : list R :=
  map (fun b => f a b) v.
Definition scalar_r (f : R -> R -> R) (u : list R) (b : R) : list R :=
  map (fun a => f a b) u.

(** [states[:, k]] on a two-dimensional array given by its rows. *)
Fixpoint column (states : list (list R)) (k : nat) : result (list R) :=
  match states with
  | [] => Ok []
  | row :: rest =>
      a <- getitem row k ;;
      col <- column rest k ;;
      Ok (a :: col)
  end.

Fixpoint zip4 (a b c d : list R) : list (list R) :=
  match a, b, c, d with
  | a0 :: a', b0 :: b', c0 :: c', d0 :: d' =>
      [a0; b0; c0; d0] :: zip4 a' b' c' d'
  | _, _, _, _ => []
  end.

(** [np.stack([a, b, c, d], axis=-1)]: all four arrays must have the same
    shape. *)
Definition stack_last (a b c d : list R) : result (list (list R)) :=
  if ((length a =? length b) && (length b =? length c)
      && (length c =? length d))%nat%bool
  then Ok (zip4 a b c d)
  else Raise ValueError.

End np.

(* ================================================================== *)
(** ** cartpole.py                                                     *)
(* ================================================================== *)

Module cartpole.

(** [@dataclass class CartPoleParams] *)
Record CartPoleParams : Type := mkCartPoleParams {
  m_cart : R;
  m_pole : R;
  l : R;
  g : R;
  damping : R;
  rotary_damping : R;
  max_force : R
}.

(** An instance of [CartPole]: the attributes set by [__init__]. *)
Record CartPole : Type := mkCartPole {
  state : list R;
  params : CartPoleParams
}.

Definition set_state (c : CartPole) (s : list R) : CartPole :=
  mkCartPole s (params c).

(** [CartPole.dynamics]; the tuple assignment raises [ValueError] unless
    [state] has exactly four entries. *)
Definition dynamics (params : CartPoleParams) (state : list R) (force : R)
  : result (list R) :=
  match state with
  | [x; x_dot; theta; theta_dot] =>
      let p := params in
      let sin_theta := sin theta in
      let cos_theta := cos theta in
      let total_mass := m_cart p + m_pole p in
      let pole_mass_length := m_pole p * l p in
      let temp :=
        (force + pole_mass_length * theta_dot ^ 2 * sin_theta
         - damping p * x_dot) / total_mass in
      let theta_acc :=
        (g p * sin_theta - cos_theta * temp - rotary_damping p * theta_dot)
        / (l p * (4 / 3 - m_pole p * cos_theta ^ 2 / total_mass)) in
      let x_acc :=
        temp - pole_mass_length * theta_acc * cos_theta / total_mass in
      Ok [x_dot; x_acc; theta_dot; theta_acc]
  | _ => Raise ValueError
  end.

(** [CartPole.dynamics_batch] *)
Definition dynamics_batch (params : CartPoleParams) (states : list (list R))
  (forces : list R) : result (list (list R)) :=
  x <- np.column states 0 ;;
  x_dot <- np.column states 1 ;;
  theta <- np.column states 2 ;;
  theta_dot <- np.column states 3 ;;
  let p := params in
  let sin_theta := map sin theta in
  let cos_theta := map cos theta in
  let total_mass := m_cart p + m_pole p in
  let pole_mass_length := m_pole p * l p in
  (* temp *)
  t1 <- np.broadcast Rmult
          (np.scalar_l Rmult pole_mass_length (map (fun a => a ^ 2) theta_dot))
          sin_theta ;;
  t2 <- np.broadcast Rplus forces t1 ;;
  t3 <- np.broadcast Rminus t2 (np.scalar_l Rmult (damping p) x_dot) ;;
  let temp := np.scalar_r Rdiv t3 total_mass in
  (* theta_acc *)
  n1 <- np.broadcast Rmult cos_theta temp ;;
  n2 <- np.broadcast Rminus (np.scalar_l Rmult (g p) sin_theta) n1 ;;
  n3 <- np.broadcast Rminus n2
          (np.scalar_l Rmult (rotary_damping p) theta_dot) ;;
  let den :=
    np.scalar_l Rmult (l p)
      (np.scalar_l Rminus (4 / 3)
         (np.scalar_r Rdiv
            (np.scalar_l Rmult (m_pole p) (map (fun a => a ^ 2) cos_theta))
            total_mass)) in
  theta_acc <- np.broadcast Rdiv n3 den ;;
  (* x_acc *)
  a1 <- np.broadcast Rmult
          (np.scalar_l Rmult pole_mass_length theta_acc) cos_theta ;;
  x_acc <- np.broadcast Rminus temp (np.scalar_r Rdiv a1 total_mass) ;;
  np.stack_last x_dot x_acc theta_dot theta_acc.

(** [CartPole.update] *)
Definition update (force dt : R) : Method CartPole unit :=
  self <~ this ;;
  let force := np.clip force (- max_force (params self))
                 (max_force (params self)) in
  derivs <~ lift (dynamics (params self) (state self) force) ;;
  st <~ lift (np.broadcast Rplus (state self) (np.scalar_r Rmult derivs dt)) ;;
  assign (fun self => set_state self st) ;;;
  self <~ this ;;
  th <~ lift (getitem (state self) 2) ;;
  st <~ lift (setitem (state self) 2
                (float_mod (th + PI) (2 * PI) - PI)) ;;
  assign (fun self => set_state self st).

(** [CartPoleParams()]: the defaults of the dataclass. *)
Definition CartPoleParams_default : CartPoleParams :=
  mkCartPoleParams 1.0 0.1 0.5 9.81 10 0.1 300.0.

(** [CartPole.__init__]; [params = None] selects the defaults.
    [init_state.astype(np.float64)] is a fresh copy of the array. *)
Definition __init__ (init_state : list R) (params : option CartPoleParams)
  : CartPole :=
  mkCartPole init_state
    (match params with
     | Some p => p
     | None => CartPoleParams_default
     end).

End cartpole.

(* ================================================================== *)
(** ** Scenarios: the concrete instances the properties are checked on *)
(* ================================================================== *)

Module scenario.

Import boat.


(** A wind field that reports still air at every position. *)
Definition still_air : IWindField := mkWindField (fun _ => (0, 0)).

Definition rest_state : BoatState := mkBoatState 0 0 0 0 0 0 0 0.

(** The end-to-end set-up: mass 10, inertia 5, no damping, arm 1, no wind
    field; the four sail parameters are left to the caller. *)
Definition e2e_params (rho Cx Cy area : R) : BoatParameters :=
  mkBoatParameters 10 5 [0; 0; 0] 1 rho Cx Cy area.

Definition e2e_boat (rho Cx Cy area : R) : Boat :=
  mkBoat DifferentialThrustBoat rest_state (e2e_params rho Cx Cy area) None.

(** A boat moving forward at 1 m/s with a unit sail (air density 1, sail
    area 2, both coefficients 1, mass 1). *)
Definition sailing_params : BoatParameters :=
  mkBoatParameters 1 1 [0; 0; 0] 1 1 1 1 2.

Definition sailing_boat (w : option IWindField) : Boat :=
  mkBoat DifferentialThrustBoat (mkBoatState 0 0 0 1 0 0 0 0)
         sailing_params w.

(** A plain [Boat] instance. *)
Definition plain_boat : Boat :=
  mkBoat BaseBoat rest_state sailing_params None.

(** The documented defaults of [CartPoleParams]. *)
Definition default_params : cartpole.CartPoleParams :=
  cartpole.mkCartPoleParams 1 (1 / 10) (1 / 2) (981 / 100) 10 (1 / 10) 300.

(** A differential-thrust boat coasting straight ahead at 1 m/s, without
    a wind field. *)
Definition coasting_boat : Boat :=
  mkBoat DifferentialThrustBoat (mkBoatState 0 0 0 1 0 0 0 0)
         sailing_params None.

End scenario.

(* ================================================================== *)
(** ** Properties                                                      *)
(* ================================================================== *)

Import boat scenario.

(** *** The floor remainder and the angle wrap *)

Lemma float_mod_range (a b : R) :
  0 < b -> 0 <= float_mod a b < b.
Proof.
  intros Hb. unfold float_mod.
  destruct (Zfloor_bound (a / b)) as [Hlo Hhi].
  assert (Ha : a = a / b * b) by (field; lra).
  split.
  - apply Rmult_le_compat_r with (r := b) in Hlo; lra.
  - apply Rmult_lt_compat_r with (r := b) in Hhi; lra.
Qed.

Lemma float_mod_small (a b : R) :
  0 <= a < b -> float_mod a b = a.
Proof.
  intros [Ha Hab]. unfold float_mod.
  assert (Hb : 0 < b) by lra.
  rewrite (Zfloor_eq 0 (a / b)).
  - simpl. ring.
  - simpl. split.
    + apply Rmult_le_reg_r with (r := b); [lra|].
      unfold Rdiv. rewrite Rmult_assoc, Rinv_l; lra.
    + apply Rmult_lt_reg_r with (r := b); [lra|].
      unfold Rdiv. rewrite Rmult_assoc, Rinv_l; lra.
Qed.

Lemma float_mod_self (b : R) :
  0 < b -> float_mod b b = 0.
Proof.
  intros Hb. unfold float_mod.
  replace (b / b) with 1 by (field; lra).
  rewrite (Zfloor_eq 1 1); [ring | simpl; lra].
Qed.

Lemma wrap_angle_range (angle : R) :
  - PI <= _wrap_angle angle < PI.
Proof.
  unfold _wrap_angle.
  pose proof PI_RGT_0 as Hpi.
  destruct (float_mod_range (angle + PI) (2 * PI)) as [Hlo Hhi]; lra.
Qed.

Lemma wrap_angle_id (angle : R) :
  - PI <= angle < PI -> _wrap_angle angle = angle.
Proof.
  intros H. unfold _wrap_angle.
  rewrite float_mod_small; lra.
Qed.

Lemma wrap_angle_PI : _wrap_angle PI = - PI.
Proof.
  unfold _wrap_angle. pose proof PI_RGT_0.
  replace (PI + PI) with (2 * PI) by ring.
  rewrite float_mod_self; lra.
Qed.

(** *** [BoatState]: construction, serialisation, Euler step *)

Lemma from_array_8 (a0 a1 a2 a3 a4 a5 a6 a7 : R) :
  from_array [a0; a1; a2; a3; a4; a5; a6; a7]
  = Ok (mkBoatState a0 a1 a2 a3 a4 a5 a6 a7).
Proof. reflexivity. Qed.

Lemma from_array_bad_length (arr : list R) :
  length arr <> 8%nat -> from_array arr = Raise ValueError.
Proof.
  intros H. unfold from_array.
  destruct (Nat.eqb_spec (length arr) 8); [contradiction | reflexivity].
Qed.

Lemma length_8_inv {A : Type} (arr : list A) :
  length arr = 8%nat ->
  exists a0 a1 a2 a3 a4 a5 a6 a7, arr = [a0; a1; a2; a3; a4; a5; a6; a7].
Proof.
  intros H.
  do 8 (destruct arr as [|? arr]; [discriminate H|]).
  destruct arr; [|discriminate H].
  do 8 eexists. reflexivity.
Qed.

(** The eight assignments of [update] on a well-shaped argument. *)
Lemma update_8 (d0 d1 d2 d3 d4 d5 d6 d7 dt : R) (s : BoatState) :
  update [d0; d1; d2; d3; d4; d5; d6; d7] dt s
  = (Ok tt,
     mkBoatState (x s + d0 * dt) (y s + d1 * dt)
                 (_wrap_angle (psi s + d2 * dt))
                 (Vx s + d3 * dt) (Vy s + d4 * dt) (omega s + d5 * dt)
                 (adapt_param1 s + d6 * dt) (adapt_param2 s + d7 * dt)).
Proof. reflexivity. Qed.

Lemma update_bad_length (d : list R) (dt : R) (s : BoatState) :
  length d <> 8%nat -> update d dt s = (Raise ValueError, s).
Proof.
  intros H. unfold update.
  destruct (Nat.eqb_spec (length d) 8); [contradiction | reflexivity].
Qed.

Lemma update_good_length (d : list R) (dt : R) (s : BoatState) :
  length d = 8%nat -> fst (update d dt s) = Ok tt.
Proof.
  intros H. destruct (length_8_inv d H) as (d0&d1&d2&d3&d4&d5&d6&d7&->).
  rewrite update_8. reflexivity.
Qed.

(** C7: [from_array (to_array s)] gives back [s], and [to_array] lists the
    fields in the order x, y, psi, Vx, Vy, omega, adapt_param1,
    adapt_param2. *)
Theorem from_array_to_array (s : BoatState) :
  from_array (to_array s) = Ok s
  /\ to_array s = [x s; y s; psi s; Vx s; Vy s; omega s;
                   adapt_param1 s; adapt_param2 s].
Proof.
  split; [|reflexivity].
  destruct s. reflexivity.
Qed.

(** C5: [from_array] and [update] raise exactly when the array argument
    does not have 8 elements, the exception is [ValueError], and a raising
    [update] leaves the state as it was. *)
Theorem validation_length_8 :
  (forall arr : list R,
      (exists e, from_array arr = Raise e) <-> length arr <> 8%nat)
  /\ (forall (arr : list R) e, from_array arr = Raise e -> e = ValueError)
  /\ (forall (d : list R) dt s,
         (exists e, fst (update d dt s) = Raise e) <-> length d <> 8%nat)
  /\ (forall (d : list R) dt s e,
         fst (update d dt s) = Raise e ->
         e = ValueError /\ snd (update d dt s) = s).
Proof.
  repeat split.
  - intros [e He] Hlen.
    destruct (length_8_inv arr Hlen) as (a0&a1&a2&a3&a4&a5&a6&a7&->).
    rewrite from_array_8 in He. discriminate He.
  - intros Hlen. exists ValueError. now apply from_array_bad_length.
  - intros arr e He.
    destruct (Nat.eq_dec (length arr) 8) as [Hlen|Hlen].
    + destruct (length_8_inv arr Hlen) as (a0&a1&a2&a3&a4&a5&a6&a7&->).
      rewrite from_array_8 in He. discriminate He.
    + rewrite (from_array_bad_length arr Hlen) in He. congruence.
  - intros [e He] Hlen.
    rewrite (update_good_length d dt s Hlen) in He. discriminate He.
  - intros Hlen. exists ValueError.
    now rewrite (update_bad_length d dt s Hlen).
  - destruct (Nat.eq_dec (length d) 8) as [Hlen|Hlen].
    + rewrite (update_good_length d dt s Hlen) in H. discriminate H.
    + rewrite (update_bad_length d dt s Hlen) in H. simpl in H. congruence.
  - destruct (Nat.eq_dec (length d) 8) as [Hlen|Hlen].
    + rewrite (update_good_length d dt s Hlen) in H. discriminate H.
    + now rewrite (update_bad_length d dt s Hlen).
Qed.

(** *** [Boat]: dynamics and one simulation step *)

Lemma set_state_state (b : Boat) : set_state b (state b) = b.
Proof. destruct b. reflexivity. Qed.

Lemma update_state_unfold (control ad : list R) (dt : R) (b : Boat) :
  update_state control ad dt b
  = match dynamics b control with
    | Ok d => (fst (update (d ++ ad) dt (state b)),
               set_state b (snd (update (d ++ ad) dt (state b))))
    | Raise e => (Raise e, b)
    end.
Proof.
  unfold update_state, mbind, this, lift, on_attr.
  destruct (dynamics b control) as [d|e]; [|reflexivity].
  destruct (update (d ++ ad) dt (state b)). reflexivity.
Qed.

Lemma kinematics_length (b : Boat) (Fx Fy M : R) (d : list R) :
  _kinematics b Fx Fy M = Ok d -> length d = 6%nat.
Proof.
  unfold _kinematics.
  destruct (wind_field b) as [wf|];
    [destruct (get_wind wf _) as [wx wy]|];
    (destruct (getitem (damping (params b)) 0); [|discriminate]);
    (destruct (getitem (damping (params b)) 1); [|discriminate]);
    (destruct (getitem (damping (params b)) 2); [|discriminate]);
    simpl; intros [= <-]; reflexivity.
Qed.

Lemma dynamics_length (b : Boat) (control d : list R) :
  dynamics b control = Ok d -> length d = 6%nat.
Proof.
  unfold dynamics, Boat_dynamics, DifferentialThrustBoat_dynamics,
    SteerableThrustBoat_dynamics.
  destruct (class_of b); [discriminate| |].
  - destruct (getitem control 0); [|discriminate].
    destruct (getitem control 1); [|discriminate].
    simpl. apply kinematics_length.
  - destruct (getitem control 0); [|discriminate].
    destruct (getitem control 1); [|discriminate].
    simpl. apply kinematics_length.
Qed.

Lemma getitem_in_range {A : Type} (arr : list A) (i : nat) :
  (i < length arr)%nat -> exists a, getitem arr i = Ok a.
Proof.
  intros H. unfold getitem.
  destruct (nth_error arr i) as [a|] eqn:E; [now exists a|].
  apply nth_error_None in E. lia.
Qed.

Lemma kinematics_ok (b : Boat) (Fx Fy M : R) :
  (3 <= length (damping (params b)))%nat ->
  exists d, _kinematics b Fx Fy M = Ok d.
Proof.
  intros H. unfold _kinematics.
  destruct (getitem_in_range (damping (params b)) 0) as [D0 E0]; [lia|].
  destruct (getitem_in_range (damping (params b)) 1) as [D1 E1]; [lia|].
  destruct (getitem_in_range (damping (params b)) 2) as [D2 E2]; [lia|].
  destruct (wind_field b) as [wf|];
    [destruct (get_wind wf _) as [wx wy]|];
    rewrite E0, E1, E2; simpl; eexists; reflexivity.
Qed.

Lemma dynamics_ok (b : Boat) (control : list R) :
  class_of b <> BaseBoat ->
  (2 <= length control)%nat ->
  (3 <= length (damping (params b)))%nat ->
  exists d, dynamics b control = Ok d.
Proof.
  intros Hc Hl Hd.
  destruct (getitem_in_range control 0) as [c0 E0]; [lia|].
  destruct (getitem_in_range control 1) as [c1 E1]; [lia|].
  unfold dynamics, DifferentialThrustBoat_dynamics,
    SteerableThrustBoat_dynamics.
  destruct (class_of b); [contradiction| |];
    rewrite E0, E1; simpl; rewrite ?E0, ?E1; simpl;
    now apply kinematics_ok.
Qed.

(** C10: [dynamics] of the base class raises [NotImplementedError] for
    every control, and so does [update_state] on a plain [Boat] (leaving it
    as it was); the two subclasses return a 6-vector for every control of
    at least two entries, the damping list having its three entries and
    mass and inertia being non-zero (the two divisors of [_kinematics]). *)
Theorem base_boat_dynamics_not_implemented :
  (forall b control,
      class_of b = BaseBoat -> dynamics b control = Raise NotImplementedError)
  /\ (forall b control ad dt,
         class_of b = BaseBoat ->
         update_state control ad dt b = (Raise NotImplementedError, b))
  /\ (forall b control,
         class_of b = DifferentialThrustBoat
         \/ class_of b = SteerableThrustBoat ->
         (2 <= length control)%nat ->
         (3 <= length (damping (params b)))%nat ->
         mass (params b) <> 0 ->
         inertia (params b) <> 0 ->
         exists d, dynamics b control = Ok d /\ length d = 6%nat).
Proof.
  split; [|split].
  - intros b control Hc. unfold dynamics. rewrite Hc. reflexivity.
  - intros b control ad dt Hc. rewrite update_state_unfold.
    unfold dynamics. rewrite Hc. reflexivity.
  - intros b control Hc Hl Hd _ _.
    destruct (dynamics_ok b control) as [d E]; try assumption.
    + destruct Hc as [Hc|Hc]; rewrite Hc; discriminate.
    + exists d. split; [assumption | now apply dynamics_length in E].
Qed.

Lemma base_boat_dynamics_not_implemented_witness :
  dynamics plain_boat [1; 1] = Raise NotImplementedError
  /\ update_state [1; 1] [0; 0] 1 plain_boat
     = (Raise NotImplementedError, plain_boat)
  /\ exists d, dynamics (sailing_boat None) [1; 1] = Ok d
               /\ length d = 6%nat.
Proof.
  destruct base_boat_dynamics_not_implemented as (H1 & H2 & H3).
  split; [|split].
  - apply H1. reflexivity.
  - apply H2. reflexivity.
  - apply H3; [left; reflexivity | simpl; lia | simpl; lia
              | simpl; lra | simpl; lra].
Defined.

(** C9 (as amended): when [adaptation_derivatives] does not have exactly
    2 elements, [update_state] ends in an exception and leaves the boat as
    it was.  The exception is the [ValueError] of [BoatState.update]
    whenever [dynamics] has returned (its output then has 6 entries);
    when [dynamics] itself raises, [update_state] ends in that
    exception. *)
Theorem update_state_bad_adaptation (b : Boat) (control ad : list R) (dt : R) :
  length ad <> 2%nat ->
  (exists e, update_state control ad dt b = (Raise e, b))
  /\ (forall d, dynamics b control = Ok d ->
                length d = 6%nat
                /\ update_state control ad dt b = (Raise ValueError, b))
  /\ (forall e, dynamics b control = Raise e ->
                update_state control ad dt b = (Raise e, b)).
Proof.
  intros Had.
  assert (Hbad : forall d, dynamics b control = Ok d ->
                           length (d ++ ad) <> 8%nat).
  { intros d E. apply dynamics_length in E.
    rewrite length_app, E. lia. }
  rewrite update_state_unfold.
  destruct (dynamics b control) as [d|e] eqn:E.
  - specialize (Hbad d eq_refl).
    rewrite (update_bad_length _ dt (state b) Hbad). simpl.
    rewrite set_state_state. split; [|split].
    + now exists ValueError.
    + intros d' [= <-]. split; [now apply dynamics_length in E | reflexivity].
    + intros e [=].
  - split; [|split].
    + now exists e.
    + intros d' [=].
    + intros e' [= <-]. reflexivity.
Qed.

Lemma update_state_bad_adaptation_witness :
  (exists e, update_state [1; 1] [0] 1 (sailing_boat None)
             = (Raise e, sailing_boat None))
  /\ (forall d, dynamics (sailing_boat None) [1; 1] = Ok d ->
                length d = 6%nat
                /\ update_state [1; 1] [0] 1 (sailing_boat None)
                   = (Raise ValueError, sailing_boat None))
  /\ (forall e, dynamics (sailing_boat None) [1; 1] = Raise e ->
                update_state [1; 1] [0] 1 (sailing_boat None)
                = (Raise e, sailing_boat None)).
Proof.
  apply (update_state_bad_adaptation (sailing_boat None) [1; 1] [0] 1).
  simpl. lia.
Defined.

(** C9, counterexample: on a plain [Boat], with an empty
    [adaptation_derivatives], [update_state] ends in
    [NotImplementedError], not in the validation error. *)
Lemma update_state_bad_adaptation_not_value_error :
  length (@nil R) <> 2%nat
  /\ update_state [1; 1] [] 1 plain_boat
     = (Raise NotImplementedError, plain_boat)
  /\ fst (update_state [1; 1] [] 1 plain_boat) <> Raise ValueError.
Proof.
  split; [discriminate|]. split; [reflexivity|]. discriminate.
Qed.

Lemma validation_length_8_witness :
  (exists e, from_array [] = Raise e)
  /\ (exists e, from_array [1; 2; 3; 4; 5; 6; 7] = Raise e)
  /\ (exists e, fst (update [1; 2; 3; 4; 5; 6; 7; 8; 9] 1 rest_state)
                = Raise e).
Proof.
  destruct validation_length_8 as (Hf & _ & Hu & _).
  split; [|split].
  - apply Hf. simpl. lia.
  - apply Hf. simpl. lia.
  - apply Hu. simpl. lia.
Defined.

(** C3 (as amended): the wrap [((angle + pi) mod 2 pi) - pi] returns a
    value in the closed interval [-pi, pi]: at least [-pi] and at most
    [pi]; the lower end [-pi] is taken (at [angle = pi]).  This holds for
    [_wrap_angle] and for the same expression written out in
    [CartPole.update], and so for the [psi] that [BoatState.update] leaves
    behind. *)
Theorem wrap_angle_closed_range :
  (forall angle : R,
      - PI <= _wrap_angle angle <= PI
      /\ - PI <= float_mod (angle + PI) (2 * PI) - PI <= PI)
  /\ _wrap_angle PI = - PI
  /\ (forall (d : list R) dt s,
         length d = 8%nat -> - PI <= psi (snd (update d dt s)) <= PI).
Proof.
  split; [|split].
  - intros angle. pose proof (wrap_angle_range angle) as H.
    unfold _wrap_angle in H |- *. lra.
  - apply wrap_angle_PI.
  - intros d dt s Hlen.
    destruct (length_8_inv d Hlen) as (d0&d1&d2&d3&d4&d5&d6&d7&->).
    rewrite update_8. cbn [snd psi].
    pose proof (wrap_angle_range (psi s + d2 * dt)). lra.
Qed.

Lemma wrap_angle_closed_range_witness :
  - PI <= _wrap_angle 7 <= PI
  /\ - PI <= psi (snd (update [0; 0; 7; 0; 0; 0; 0; 0] 1 rest_state)) <= PI.
Proof.
  destruct wrap_angle_closed_range as (H1 & _ & H2).
  split.
  - apply H1.
  - apply H2. reflexivity.
Defined.

(** C3, counterexample: the wrap of [pi] is [-pi], which is not strictly
    greater than [-pi]. *)
Lemma wrap_angle_PI_not_in_left_open :
  ~ (- PI < _wrap_angle PI <= PI).
Proof.
  rewrite wrap_angle_PI. intros [H _]. lra.
Qed.

(** *** End-to-end step of the differential-thrust boat *)

Lemma e2e_dynamics (rho Cx Cy area : R) :
  dynamics (e2e_boat rho Cx Cy area) [1; 1]
  = Ok [0 * cos 0 - 0 * sin 0; 0 * sin 0 + 0 * cos 0; 0;
        (1 + 1 + 0) / 10 - 0 * 0; (0 + 0) / 10 - 0 * 0;
        1 * (1 - 1) / 5 - 0 * 0].
Proof. reflexivity. Qed.

Lemma e2e_step (rho Cx Cy area : R) :
  update_state [1; 1] [0; 0] 1 (e2e_boat rho Cx Cy area)
  = (Ok tt,
     set_state (e2e_boat rho Cx Cy area)
               (mkBoatState 0 0 0 (2 / 10) 0 0 0 0)).
Proof.
  rewrite update_state_unfold, e2e_dynamics.
  cbn [app]. rewrite update_8. cbn [fst snd].
  do 2 f_equal. cbn [e2e_boat state rest_state x y psi Vx Vy omega
                       adapt_param1 adapt_param2].
  f_equal; try lra.
  rewrite wrap_angle_id; pose proof PI_RGT_0; lra.
Qed.

(** C1 (as amended): from the all-zero state, with mass 10, inertia 5,
    damping [0,0,0], L = 1 and no wind field, one [update_state] with
    control (1,1), zero adaptation derivatives and dt = 1 returns normally
    and yields Vx = 0.2 (the summed thrust 2 over the mass 10); the other
    seven components are 0. *)
Theorem e2e_one_step (rho Cx Cy area : R) :
  let out := update_state [1; 1] [0; 0] 1 (e2e_boat rho Cx Cy area) in
  fst out = Ok tt
  /\ Vx (state (snd out)) = 2 / 10
  /\ x (state (snd out)) = 0
  /\ y (state (snd out)) = 0
  /\ psi (state (snd out)) = 0
  /\ Vy (state (snd out)) = 0
  /\ omega (state (snd out)) = 0
  /\ adapt_param1 (state (snd out)) = 0
  /\ adapt_param2 (state (snd out)) = 0.
Proof.
  cbv zeta. rewrite e2e_step. cbn. repeat split; reflexivity.
Qed.

(** C1, counterexample: in that set-up (sail parameters all 1) the step
    does not yield Vx = 0.1. *)
Lemma e2e_one_step_Vx_not_one_tenth :
  Vx (state (snd (update_state [1; 1] [0; 0] 1 (e2e_boat 1 1 1 1))))
  <> 1 / 10.
Proof.
  rewrite e2e_step. cbn. lra.
Qed.

(** *** Still air against no wind field *)







(** *** NumPy helpers on arrays built by [map] *)

Lemma map2_map {X : Type} (f : R -> R -> R) (g1 g2 : X -> R) (l : list X) :
  np.map2 f (map g1 l) (map g2 l) = map (fun a => f (g1 a) (g2 a)) l.
Proof.
  induction l as [|a l IH]; [reflexivity|].
  cbn [map np.map2]. now rewrite IH.
Qed.

Lemma broadcast_map {X : Type} (f : R -> R -> R) (g1 g2 : X -> R)
  (l : list X) :
  np.broadcast f (map g1 l) (map g2 l)
  = Ok (map (fun a => f (g1 a) (g2 a)) l).
Proof.
  unfold np.broadcast.
  rewrite !length_map, Nat.eqb_refl. now rewrite map2_map.
Qed.

Lemma zip4_map {X : Type} (a b c d : X -> R) (l : list X) :
  np.zip4 (map a l) (map b l) (map c l) (map d l)
  = map (fun e => [a e; b e; c e; d e]) l.
Proof.
  induction l as [|e l IH]; [reflexivity|].
  cbn [map np.zip4]. now rewrite IH.
Qed.

Lemma stack_last_map {X : Type} (a b c d : X -> R) (l : list X) :
  np.stack_last (map a l) (map b l) (map c l) (map d l)
  = Ok (map (fun e => [a e; b e; c e; d e]) l).
Proof.
  unfold np.stack_last.
  rewrite !length_map, Nat.eqb_refl. cbn [andb]. now rewrite zip4_map.
Qed.

Lemma column_rows_4 (states : list (list R)) (k : nat) :
  Forall (fun r => length r = 4%nat) states -> (k < 4)%nat ->
  np.column states k = Ok (map (fun r => nth k r 0) states).
Proof.
  intros H Hk. induction H as [|r rest Hr _ IH]; [reflexivity|].
  cbn [np.column map]. rewrite IH.
  do 4 (destruct r as [|? r]; [discriminate Hr|]).
  destruct r; [|discriminate Hr].
  do 4 (destruct k as [|k]; [reflexivity|]). lia.
Qed.

Lemma combine_fst_map {X : Type} (g : list R -> X) (states : list (list R))
  (forces : list R) :
  length forces = length states ->
  map g states = map (fun e => g (fst e)) (combine states forces).
Proof.
  revert forces. induction states as [|s states IH]; intros [|f forces] H;
    try discriminate H; [reflexivity|].
  cbn [combine map fst]. f_equal. apply IH. now injection H.
Qed.

Lemma combine_snd_map (states : list (list R)) (forces : list R) :
  length forces = length states ->
  forces = map snd (combine states forces).
Proof.
  revert forces. induction states as [|s states IH]; intros [|f forces] H;
    try discriminate H; [reflexivity|].
  cbn [combine map snd]. f_equal. apply IH. now injection H.
Qed.

Lemma dynamics_batch_as_map (p : cartpole.CartPoleParams)
  (states : list (list R)) (forces : list R) :
  Forall (fun r => length r = 4%nat) states ->
  length forces = length states ->
  exists h : list R * R -> list R,
    cartpole.dynamics_batch p states forces
    = Ok (map h (combine states forces))
    /\ forall s f, length s = 4%nat -> cartpole.dynamics p s f = Ok (h (s, f)).
Proof.
  intros Hrows Hlen. eexists. split.
  - unfold cartpole.dynamics_batch.
    rewrite !column_rows_4 by (assumption || lia). cbn [bind].
    pose proof (combine_snd_map states forces Hlen) as Hf.
    rewrite !(combine_fst_map _ states forces Hlen).
    remember (combine states forces) as rows eqn:Erows.
    rewrite Hf. unfold np.scalar_l, np.scalar_r.
    repeat (rewrite ?map_map; rewrite broadcast_map; cbn [bind]).
    rewrite ?map_map. rewrite stack_last_map.
    reflexivity.
  - intros s f Hs.
    do 4 (destruct s as [|? s]; [discriminate Hs|]).
    destruct s; [|discriminate Hs].
    reflexivity.
Qed.

Lemma nth_error_combine {X Y : Type} (u : list X) (v : list Y) (i : nat)
  (a : X) (b : Y) :
  nth_error u i = Some a -> nth_error v i = Some b ->
  nth_error (combine u v) i = Some (a, b).
Proof.
  revert v i. induction u as [|a0 u IH]; intros [|b0 v] [|i] Ha Hb;
    try discriminate Ha; try discriminate Hb.
  - cbn in *. congruence.
  - cbn in *. now apply IH.
Qed.

(** Row [i] of the batched output is the scalar [dynamics] of row [i]. *)
Lemma dynamics_batch_row (p : cartpole.CartPoleParams)
  (states : list (list R)) (forces : list R) :
  Forall (fun r => length r = 4%nat) states ->
  length forces = length states ->
  exists out,
    cartpole.dynamics_batch p states forces = Ok out
    /\ length out = length states
    /\ forall i s f,
        nth_error states i = Some s -> nth_error forces i = Some f ->
        exists row, nth_error out i = Some row
                    /\ cartpole.dynamics p s f = Ok row.
Proof.
  intros Hrows Hlen.
  destruct (dynamics_batch_as_map p states forces Hrows Hlen)
    as (h & Hbatch & Hh).
  exists (map h (combine states forces)). split; [assumption|]. split.
  - rewrite length_map, length_combine, Hlen. apply Nat.min_id.
  - intros i s f Hs Hf. exists (h (s, f)). split.
    + rewrite nth_error_map, (nth_error_combine _ _ _ _ _ Hs Hf).
      reflexivity.
    + apply Hh. rewrite Forall_forall in Hrows. apply Hrows.
      eapply nth_error_In; eassumption.
Qed.

(** C4: for an N x 4 array of states and N forces, [dynamics_batch] returns
    N rows, row [i] being [dynamics(params, states[i], forces[i])]; a second
    batch that agrees with the first at index [i] gets the same row [i],
    whatever its other rows hold. *)
Theorem dynamics_batch_scalar (p : cartpole.CartPoleParams)
  (states : list (list R)) (forces : list R) :
  Forall (fun r => length r = 4%nat) states ->
  length forces = length states ->
  exists out,
    cartpole.dynamics_batch p states forces = Ok out
    /\ length out = length states
    /\ (forall i s f,
           nth_error states i = Some s -> nth_error forces i = Some f ->
           exists row, nth_error out i = Some row
                       /\ cartpole.dynamics p s f = Ok row)
    /\ (forall states' forces' out' i,
           Forall (fun r => length r = 4%nat) states' ->
           length forces' = length states' ->
           cartpole.dynamics_batch p states' forces' = Ok out' ->
           (i < length states)%nat ->
           nth_error states' i = nth_error states i ->
           nth_error forces' i = nth_error forces i ->
           nth_error out' i = nth_error out i).
Proof.
  intros Hrows Hlen.
  destruct (dynamics_batch_row p states forces Hrows Hlen)
    as (out & Hout & Hlo & Hrow).
  exists out. repeat split; try assumption.
  intros states' forces' out' i Hrows' Hlen' Hout' Hi Es Ef.
  destruct (dynamics_batch_row p states' forces' Hrows' Hlen')
    as (out2 & Hout2 & _ & Hrow').
  rewrite Hout' in Hout2. injection Hout2 as <-.
  destruct (nth_error states i) as [s|] eqn:E1;
    [|apply nth_error_None in E1; lia].
  destruct (nth_error forces i) as [f|] eqn:E2;
    [|apply nth_error_None in E2; lia].
  destruct (Hrow i s f E1 E2) as (row & Hr & Hd).
  destruct (Hrow' i s f Es Ef) as (row' & Hr' & Hd').
  rewrite Hr, Hr'. congruence.
Qed.

Lemma dynamics_batch_scalar_witness :
  exists out,
    cartpole.dynamics_batch default_params
      [[0; 0; 0; 0]; [1; 2; 3; 4]] [0; 5] = Ok out
    /\ length out = 2%nat
    /\ exists row, nth_error out 1 = Some row
                   /\ cartpole.dynamics default_params [1; 2; 3; 4] 5
                      = Ok row.
Proof.
  destruct (dynamics_batch_scalar default_params
              [[0; 0; 0; 0]; [1; 2; 3; 4]] [0; 5])
    as (out & Hout & Hlen & Hrow & _).
  - repeat constructor.
  - reflexivity.
  - exists out. split; [assumption|]. split; [assumption|].
    apply (Hrow 1%nat); reflexivity.
Defined.

(** *** [CartPole.update]: saturation, Euler step, wrap *)

(** Case analysis on nested [Rmin]/[Rmax], innermost comparison first. *)
Ltac clip_cases :=
  repeat match goal with
         | |- context [Rle_dec ?a ?b] =>
             lazymatch a with
             | context [Rle_dec _ _] => fail
             | _ => lazymatch b with
                    | context [Rle_dec _ _] => fail
                    | _ => destruct (Rle_dec a b)
                    end
             end
         end;
  lra.

Lemma clip_at_limit (m : R) : np.clip m (- m) m = m.
Proof.
  unfold np.clip, Rmin, Rmax.
  clip_cases.
Qed.

Lemma clip_beyond_limit (m : R) : np.clip (10 * m) (- m) m = m.
Proof.
  unfold np.clip, Rmin, Rmax.
  clip_cases.
Qed.

Lemma clip_inside (f m : R) : - m <= f <= m -> np.clip f (- m) m = f.
Proof. intros H. unfold np.clip, Rmin, Rmax. clip_cases. Qed.

Lemma clip_above (f m : R) : 0 <= m -> m <= f -> np.clip f (- m) m = m.
Proof. intros H1 H2. unfold np.clip, Rmin, Rmax. clip_cases. Qed.

Lemma clip_below (f m : R) : 0 <= m -> f <= - m -> np.clip f (- m) m = - m.
Proof. intros H1 H2. unfold np.clip, Rmin, Rmax. clip_cases. Qed.

Lemma cartpole_dynamics_4 (p : cartpole.CartPoleParams) (s : list R)
  (f : R) :
  length s = 4%nat ->
  exists d0 d1 d2 d3, cartpole.dynamics p s f = Ok [d0; d1; d2; d3].
Proof.
  intros Hs.
  do 4 (destruct s as [|? s]; [discriminate Hs|]).
  destruct s; [|discriminate Hs].
  do 4 eexists. reflexivity.
Qed.

Lemma cartpole_dynamics_bad_shape (p : cartpole.CartPoleParams)
  (s : list R) (f : R) :
  length s <> 4%nat -> cartpole.dynamics p s f = Raise ValueError.
Proof.
  intros Hs.
  do 4 (destruct s as [|? s]; [reflexivity|]).
  destruct s; [contradiction Hs|]; reflexivity.
Qed.

(** The step on a four-entry state, in terms of the derivative vector. *)
Lemma cartpole_update_4 (p : cartpole.CartPoleParams)
  (x x_dot theta theta_dot f dt d0 d1 d2 d3 : R) :
  cartpole.dynamics p [x; x_dot; theta; theta_dot]
    (np.clip f (- cartpole.max_force p) (cartpole.max_force p))
  = Ok [d0; d1; d2; d3] ->
  cartpole.update f dt (cartpole.mkCartPole [x; x_dot; theta; theta_dot] p)
  = (Ok tt,
     cartpole.mkCartPole
       [x + d0 * dt; x_dot + d1 * dt;
        _wrap_angle (theta + d2 * dt); theta_dot + d3 * dt] p).
Proof.
  intros Hd. unfold cartpole.update, mbind, this, lift.
  cbn [cartpole.params cartpole.state]. rewrite Hd.
  reflexivity.
Qed.

Lemma cartpole_update_dt0 (p : cartpole.CartPoleParams)
  (x x_dot theta theta_dot f : R) :
  cartpole.update f 0 (cartpole.mkCartPole [x; x_dot; theta; theta_dot] p)
  = (Ok tt,
     cartpole.mkCartPole [x; x_dot; _wrap_angle theta; theta_dot] p).
Proof.
  destruct (cartpole_dynamics_4 p [x; x_dot; theta; theta_dot]
              (np.clip f (- cartpole.max_force p) (cartpole.max_force p))
              eq_refl) as (d0 & d1 & d2 & d3 & Hd).
  rewrite (cartpole_update_4 _ _ _ _ _ _ _ _ _ _ _ Hd).
  do 2 f_equal.
  f_equal; [ring|]. f_equal; [ring|]. f_equal; [f_equal; ring|].
  f_equal. ring.
Qed.

Lemma cartpole_state_4 (c : cartpole.CartPole) :
  length (cartpole.state c) = 4%nat ->
  exists x x_dot theta theta_dot,
    c = cartpole.mkCartPole [x; x_dot; theta; theta_dot] (cartpole.params c).
Proof.
  destruct c as [s p]. cbn [cartpole.state cartpole.params]. intros Hs.
  do 4 (destruct s as [|? s]; [discriminate Hs|]).
  destruct s; [|discriminate Hs].
  do 4 eexists. reflexivity.
Qed.

Lemma cartpole_update_returns (c : cartpole.CartPole) (f dt : R) :
  length (cartpole.state c) = 4%nat ->
  exists x x_dot theta theta_dot,
    cartpole.update f dt c
    = (Ok tt,
       cartpole.mkCartPole [x; x_dot; theta; theta_dot] (cartpole.params c))
    /\ - PI <= theta < PI.
Proof.
  intros Hs.
  destruct (cartpole_state_4 c Hs) as (x & xd & th & thd & Ec).
  set (p := cartpole.params c) in *. rewrite Ec.
  destruct (cartpole_dynamics_4 p [x; xd; th; thd]
              (np.clip f (- cartpole.max_force p) (cartpole.max_force p))
              eq_refl) as (d0 & d1 & d2 & d3 & Hd).
  rewrite (cartpole_update_4 _ _ _ _ _ _ _ _ _ _ _ Hd).
  do 4 eexists. split; [reflexivity | apply wrap_angle_range].
Qed.

(** The step on a four-entry state, written out: the derivative vector
    echoes the two velocities, and the stored angle is the wrap expression
    of [update] applied to the integrated angle. *)
Lemma cartpole_update_step (p : cartpole.CartPoleParams)
  (x x_dot theta theta_dot f dt : R) :
  exists x_acc theta_acc,
    cartpole.dynamics p [x; x_dot; theta; theta_dot]
      (np.clip f (- cartpole.max_force p) (cartpole.max_force p))
    = Ok [x_dot; x_acc; theta_dot; theta_acc]
    /\ cartpole.update f dt
         (cartpole.mkCartPole [x; x_dot; theta; theta_dot] p)
       = (Ok tt,
          cartpole.mkCartPole
            [x + x_dot * dt; x_dot + x_acc * dt;
             float_mod (theta + theta_dot * dt + PI) (2 * PI) - PI;
             theta_dot + theta_acc * dt] p).
Proof.
  do 2 eexists. split; [reflexivity|].
  erewrite cartpole_update_4 by reflexivity. reflexivity.
Qed.

(** C6: [update] with force [10 * max_force] ends in the same outcome and
    state as with force [max_force].  The force is clamped to
    [-max_force, max_force] (for a non-negative [max_force]): a force at
    or above the limit becomes [max_force], a force at or below the lower
    limit becomes [-max_force], a force inside the limits is kept.  On a
    four-entry state [update] raises nothing: it returns normally, having
    advanced the state by one Euler step of [dynamics] at the clamped
    force and wrapped the angle. *)
Theorem update_saturates (c : cartpole.CartPole) (dt : R) :
  let p := cartpole.params c in
  let m := cartpole.max_force p in
  cartpole.update (10 * m) dt c = cartpole.update m dt c
  /\ (0 <= m ->
      forall f,
        (m <= f -> np.clip f (- m) m = m)
        /\ (f <= - m -> np.clip f (- m) m = - m)
        /\ (- m <= f <= m -> np.clip f (- m) m = f))
  /\ (forall f x x_dot theta theta_dot,
         cartpole.state c = [x; x_dot; theta; theta_dot] ->
         exists x_acc theta_acc,
           cartpole.dynamics p [x; x_dot; theta; theta_dot]
             (np.clip f (- m) m)
           = Ok [x_dot; x_acc; theta_dot; theta_acc]
           /\ cartpole.update f dt c
              = (Ok tt,
                 cartpole.mkCartPole
                   [x + x_dot * dt; x_dot + x_acc * dt;
                    float_mod (theta + theta_dot * dt + PI) (2 * PI) - PI;
                    theta_dot + theta_acc * dt] p)).
Proof.
  cbv zeta. split; [|split].
  - unfold cartpole.update, mbind, this. cbn beta iota.
    now rewrite clip_beyond_limit, clip_at_limit.
  - intros Hm f. split; [|split].
    + now apply clip_above.
    + now apply clip_below.
    + apply clip_inside.
  - intros f x x_dot theta theta_dot Hs.
    destruct c as [s p]. cbn [cartpole.state cartpole.params] in *.
    subst s. apply cartpole_update_step.
Qed.

Lemma update_saturates_witness :
  cartpole.update (10 * 300) 1
    (cartpole.mkCartPole [0; 0; 1; 0] default_params)
  = cartpole.update 300 1
      (cartpole.mkCartPole [0; 0; 1; 0] default_params)
  /\ np.clip 3000 (- 300) 300 = 300
  /\ np.clip (- 3000) (- 300) 300 = - 300
  /\ np.clip 5 (- 300) 300 = 5
  /\ exists x_acc theta_acc,
       cartpole.dynamics default_params [0; 0; 1; 0]
         (np.clip 3000 (- 300) 300)
       = Ok [0; x_acc; 0; theta_acc]
       /\ cartpole.update 3000 1
            (cartpole.mkCartPole [0; 0; 1; 0] default_params)
          = (Ok tt,
             cartpole.mkCartPole
               [0 + 0 * 1; 0 + x_acc * 1;
                float_mod (1 + 0 * 1 + PI) (2 * PI) - PI;
                0 + theta_acc * 1] default_params).
Proof.
  destruct (update_saturates
              (cartpole.mkCartPole [0; 0; 1; 0] default_params) 1)
    as (H1 & H2 & H3).
  assert (Hm : 0 <= 300) by lra.
  split; [exact H1|].
  split; [apply (H2 Hm 3000); simpl; lra|].
  split; [apply (H2 Hm (- 3000)); simpl; lra|].
  split; [apply (H2 Hm 5); simpl; lra|].
  apply (H3 3000 0 0 1 0). reflexivity.
Defined.

(** C8: [update] wraps the pole angle unconditionally after the Euler
    step.  On a four-entry state it returns normally for every force and
    [dt] (also [dt = 0]), the angle it stores is the wrap expression
    applied to [theta + theta_dot * dt], and that angle lies in
    [-pi, pi].  Hence with [dt = 0] the step is not the identity on a
    state whose pole angle lies outside [-pi, pi]. *)
Theorem update_always_wraps (p : cartpole.CartPoleParams)
  (x x_dot theta theta_dot f : R) :
  let c := cartpole.mkCartPole [x; x_dot; theta; theta_dot] p in
  (forall dt,
      exists x_acc theta_acc,
        cartpole.dynamics p [x; x_dot; theta; theta_dot]
          (np.clip f (- cartpole.max_force p) (cartpole.max_force p))
        = Ok [x_dot; x_acc; theta_dot; theta_acc]
        /\ cartpole.update f dt c
           = (Ok tt,
              cartpole.mkCartPole
                [x + x_dot * dt; x_dot + x_acc * dt;
                 float_mod (theta + theta_dot * dt + PI) (2 * PI) - PI;
                 theta_dot + theta_acc * dt] p)
        /\ - PI <= float_mod (theta + theta_dot * dt + PI) (2 * PI) - PI
           <= PI)
  /\ (theta < - PI \/ PI < theta -> snd (cartpole.update f 0 c) <> c).
Proof.
  cbv zeta. split.
  - intros dt.
    destruct (cartpole_update_step p x x_dot theta theta_dot f dt)
      as (x_acc & theta_acc & Hd & Hu).
    exists x_acc, theta_acc. split; [exact Hd|]. split; [exact Hu|].
    pose proof (wrap_angle_range (theta + theta_dot * dt)) as H.
    unfold _wrap_angle in H. lra.
  - intros Hout. rewrite cartpole_update_dt0. cbn [snd]. intros E.
    injection E as E.
    pose proof (wrap_angle_range theta) as H. rewrite E in H. lra.
Qed.

Lemma update_always_wraps_witness :
  (exists x_acc theta_acc,
      cartpole.update 0 0 (cartpole.mkCartPole [0; 0; 7; 0] default_params)
      = (Ok tt,
         cartpole.mkCartPole
           [0 + 0 * 0; 0 + x_acc * 0;
            float_mod (7 + 0 * 0 + PI) (2 * PI) - PI;
            0 + theta_acc * 0] default_params))
  /\ snd (cartpole.update 0 0
            (cartpole.mkCartPole [0; 0; 7; 0] default_params))
     <> cartpole.mkCartPole [0; 0; 7; 0] default_params.
Proof.
  destruct (update_always_wraps default_params 0 0 7 0 0) as (H1 & H2).
  split.
  - destruct (H1 0) as (xa & ta & _ & Hu & _). exists xa, ta. exact Hu.
  - apply H2. right. pose proof PI_4. lra.
Defined.

(* ================================================================== *)
(** ** Further properties of the boat state                            *)
(* ================================================================== *)

(** *** Round trip and zero step of [BoatState] *)

(** X4: whenever [from_array] returns a state, [to_array] of that state is
    the array it was built from. *)
Theorem to_array_from_array (arr : list R) (s : BoatState) :
  from_array arr = Ok s -> to_array s = arr.
Proof.
  intros H.
  destruct (Nat.eq_dec (length arr) 8) as [Hlen|Hlen].
  - destruct (length_8_inv arr Hlen) as (a0&a1&a2&a3&a4&a5&a6&a7&->).
    rewrite from_array_8 in H. injection H as <-. reflexivity.
  - rewrite (from_array_bad_length arr Hlen) in H. discriminate H.
Qed.

Lemma to_array_from_array_witness :
  to_array (mkBoatState 1 2 3 4 5 6 7 8) = [1; 2; 3; 4; 5; 6; 7; 8].
Proof.
  apply (to_array_from_array [1; 2; 3; 4; 5; 6; 7; 8]). reflexivity.
Defined.

(** X5: [update] with [dt = 0], or with eight zero derivatives, changes at
    most [psi], which it replaces by its wrap; the other seven components
    are exactly as before. *)
Theorem update_zero_step (d : list R) (dt : R) (s : BoatState) :
  length d = 8%nat ->
  dt = 0 \/ d = [0; 0; 0; 0; 0; 0; 0; 0] ->
  update d dt s = (Ok tt, set_psi s (_wrap_angle (psi s))).
Proof.
  intros Hlen Hz.
  destruct (length_8_inv d Hlen) as (d0&d1&d2&d3&d4&d5&d6&d7&->).
  rewrite update_8. unfold set_psi. f_equal.
  destruct Hz as [-> | [= -> -> -> -> -> -> -> ->]];
    (f_equal; try ring; f_equal; ring).
Qed.

Lemma update_zero_step_witness :
  update [1; 2; 3; 4; 5; 6; 7; 8] 0 rest_state
  = (Ok tt, set_psi rest_state (_wrap_angle (psi rest_state))).
Proof.
  apply (update_zero_step [1; 2; 3; 4; 5; 6; 7; 8] 0 rest_state);
    [reflexivity | left; reflexivity].
Defined.

(* ================================================================== *)
(** ** Further properties of the boat model                            *)
(* ================================================================== *)

(** *** What [dynamics] and [update_state] return, read backwards *)

Lemma getitem_raise {A : Type} (arr : list A) (i : nat) (e : exn) :
  getitem arr i = Raise e -> e = IndexError /\ (length arr <= i)%nat.
Proof.
  unfold getitem. destruct (nth_error arr i) eqn:E; [discriminate|].
  intros [= <-]. split; [reflexivity | now apply nth_error_None].
Qed.

Lemma getitem_ok_lt {A : Type} (arr : list A) (i : nat) (a : A) :
  getitem arr i = Ok a -> (i < length arr)%nat.
Proof.
  unfold getitem. destruct (nth_error arr i) eqn:E; [|discriminate].
  intros _. apply nth_error_Some. congruence.
Qed.

Lemma kinematics_inv (b : Boat) (Fx Fy M : R) (d : list R) :
  _kinematics b Fx Fy M = Ok d ->
  exists D0 D1 D2 Fsx Fsy,
    getitem (damping (params b)) 0 = Ok D0
    /\ getitem (damping (params b)) 1 = Ok D1
    /\ getitem (damping (params b)) 2 = Ok D2
    /\ (wind_field b = None -> Fsx = 0 /\ Fsy = 0)
    /\ d = [Vx (state b) * cos (psi (state b))
            - Vy (state b) * sin (psi (state b));
            Vx (state b) * sin (psi (state b))
            + Vy (state b) * cos (psi (state b));
            omega (state b);
            (Fx + Fsx) / mass (params b) - D0 * Vx (state b);
            (Fy + Fsy) / mass (params b) - D1 * Vy (state b);
            M / inertia (params b) - D2 * omega (state b)].
Proof.
  unfold _kinematics.
  destruct (wind_field b) as [wf|]; [destruct (get_wind wf _) as [wx wy]|];
    (destruct (getitem (damping (params b)) 0) as [D0|]; [|discriminate]);
    (destruct (getitem (damping (params b)) 1) as [D1|]; [|discriminate]);
    (destruct (getitem (damping (params b)) 2) as [D2|]; [|discriminate]);
    cbn [bind]; intros [= <-]; exists D0, D1, D2.
  - do 2 eexists. do 3 (split; [reflexivity|]).
    split; [intros [=] | reflexivity].
  - exists 0, 0. do 3 (split; [reflexivity|]).
    split; [intros _; split; reflexivity | reflexivity].
Qed.

Lemma dynamics_inv (b : Boat) (control d : list R) :
  dynamics b control = Ok d ->
  exists c0 c1 Fx Fy M,
    getitem control 0 = Ok c0 /\ getitem control 1 = Ok c1
    /\ _kinematics b Fx Fy M = Ok d
    /\ (class_of b = DifferentialThrustBoat ->
        Fx = c0 + c1 /\ Fy = 0 /\ M = L (params b) * (c1 - c0))
    /\ (class_of b = SteerableThrustBoat ->
        Fx = c0 * cos c1 /\ Fy = c0 * sin c1
        /\ M = c0 * L (params b) * sin c1)
    /\ class_of b <> BaseBoat.
Proof.
  unfold dynamics, Boat_dynamics, DifferentialThrustBoat_dynamics,
    SteerableThrustBoat_dynamics.
  destruct (class_of b); [discriminate| |];
    (destruct (getitem control 0) as [c0|]; [|discriminate]);
    (destruct (getitem control 1) as [c1|]; [|discriminate]);
    cbn [bind]; intros H; exists c0, c1; do 3 eexists;
    (split; [reflexivity|]); (split; [reflexivity|]);
    (split; [exact H|]);
    (split; [intros E; try discriminate E; repeat split|]);
    (split; [intros E; try discriminate E; repeat split|]);
    discriminate.
Qed.

Lemma length_2_inv {A : Type} (arr : list A) :
  length arr = 2%nat -> exists a0 a1, arr = [a0; a1].
Proof.
  intros H.
  do 2 (destruct arr as [|? arr]; [discriminate H|]).
  destruct arr; [|discriminate H].
  do 2 eexists. reflexivity.
Qed.

Lemma update_state_inv (control ad : list R) (dt : R) (b b' : Boat) :
  update_state control ad dt b = (Ok tt, b') ->
  exists d0 d1 d2 d3 d4 d5 e0 e1,
    dynamics b control = Ok [d0; d1; d2; d3; d4; d5]
    /\ ad = [e0; e1]
    /\ b' = set_state b
              (mkBoatState
                 (x (state b) + d0 * dt) (y (state b) + d1 * dt)
                 (_wrap_angle (psi (state b) + d2 * dt))
                 (Vx (state b) + d3 * dt) (Vy (state b) + d4 * dt)
                 (omega (state b) + d5 * dt)
                 (adapt_param1 (state b) + e0 * dt)
                 (adapt_param2 (state b) + e1 * dt)).
Proof.
  rewrite update_state_unfold.
  destruct (dynamics b control) as [d|e] eqn:Ed; [|discriminate].
  pose proof (dynamics_length b control d Ed) as Hd.
  destruct (Nat.eq_dec (length ad) 2) as [Ha|Ha].
  - destruct (length_2_inv ad Ha) as (e0 & e1 & ->).
    do 6 (destruct d as [|? d]; [discriminate Hd|]).
    destruct d; [|discriminate Hd].
    cbn [app]. rewrite update_8. cbn [fst snd]. intros [= <-].
    do 8 eexists. repeat split.
  - rewrite update_bad_length; [discriminate|].
    rewrite length_app, Hd. lia.
Qed.

Lemma update_state_raise_unchanged (control ad : list R) (dt : R)
  (b : Boat) (e : exn) :
  fst (update_state control ad dt b) = Raise e ->
  snd (update_state control ad dt b) = b.
Proof.
  rewrite update_state_unfold.
  destruct (dynamics b control) as [d|e'] eqn:Ed; [|reflexivity].
  cbn [fst snd].
  destruct (Nat.eq_dec (length (d ++ ad)) 8) as [Hl|Hl].
  - rewrite (update_good_length _ dt (state b) Hl). discriminate.
  - rewrite (update_bad_length _ dt (state b) Hl). intros _.
    apply set_state_state.
Qed.

(** X7: for the two subclasses, with non-zero mass and inertia (the two
    divisors of [_kinematics]), [dynamics] returns exactly when [control]
    has at least two entries and the damping list at least three; any
    exception it raises is an [IndexError]; entries of [control] after the
    second are never read. *)
Theorem dynamics_returns_iff (b : Boat) (control : list R) :
  class_of b <> BaseBoat ->
  mass (params b) <> 0 ->
  inertia (params b) <> 0 ->
  ((exists d, dynamics b control = Ok d)
   <-> (2 <= length control)%nat
       /\ (3 <= length (damping (params b)))%nat)
  /\ (forall e, dynamics b control = Raise e -> e = IndexError)
  /\ (forall c0 c1 rest,
         control = c0 :: c1 :: rest ->
         dynamics b control = dynamics b [c0; c1]).
Proof.
  intros Hc _ _. split; [split|split].
  - intros [d Hd].
    destruct (dynamics_inv b control d Hd)
      as (c0 & c1 & Fx & Fy & M & H0 & H1 & Hk & _).
    destruct (kinematics_inv b Fx Fy M d Hk)
      as (D0 & D1 & D2 & Fsx & Fsy & _ & _ & H2 & _).
    apply getitem_ok_lt in H1, H2. lia.
  - intros [Hl Hd]. now apply dynamics_ok.
  - intros e He.
    destruct (le_lt_dec 2 (length control)) as [Hl|Hl].
    + destruct (le_lt_dec 3 (length (damping (params b)))) as [Hd|Hd].
      * destruct (dynamics_ok b control Hc Hl Hd) as [d E]. congruence.
      * revert He.
        destruct (getitem_in_range control 0) as [c0 E0]; [lia|].
        destruct (getitem_in_range control 1) as [c1 E1]; [lia|].
        unfold dynamics, DifferentialThrustBoat_dynamics,
          SteerableThrustBoat_dynamics, _kinematics.
        destruct (class_of b); [contradiction| |];
          rewrite E0, E1; cbn [bind]; rewrite ?E0, ?E1; cbn [bind];
          (destruct (wind_field b) as [wf|];
           [destruct (get_wind wf _) as [wx wy]|]);
          (destruct (getitem (damping (params b)) 0) eqn:G0;
           [|apply getitem_raise in G0; cbn [bind]; intros [= <-];
             apply G0]);
          (destruct (getitem (damping (params b)) 1) eqn:G1;
           [|apply getitem_raise in G1; cbn [bind]; intros [= <-];
             apply G1]);
          (destruct (getitem (damping (params b)) 2) eqn:G2;
           [|apply getitem_raise in G2; cbn [bind]; intros [= <-];
             apply G2]);
          cbn [bind]; discriminate.
    + revert He.
      unfold dynamics, DifferentialThrustBoat_dynamics,
        SteerableThrustBoat_dynamics.
      destruct (class_of b); [contradiction| |];
        (destruct (getitem control 0) eqn:G0;
         [|apply getitem_raise in G0; cbn [bind]; intros [= <-];
           apply G0]);
        (destruct (getitem control 1) eqn:G1;
         [|apply getitem_raise in G1; cbn [bind]; intros [= <-];
           apply G1]);
        apply getitem_ok_lt in G1; lia.
  - intros c0 c1 rest ->.
    unfold dynamics, DifferentialThrustBoat_dynamics,
      SteerableThrustBoat_dynamics.
    destruct (class_of b); reflexivity.
Qed.

Lemma dynamics_returns_iff_witness :
  ((exists d, dynamics coasting_boat [1] = Ok d)
   <-> (2 <= length [1])%nat
       /\ (3 <= length (damping (params coasting_boat)))%nat)
  /\ (forall e, dynamics coasting_boat [1] = Raise e -> e = IndexError)
  /\ (forall c0 c1 rest,
         [1] = c0 :: c1 :: rest ->
         dynamics coasting_boat [1] = dynamics coasting_boat [c0; c1]).
Proof.
  apply (dynamics_returns_iff coasting_boat [1]);
    [discriminate | simpl; lra | simpl; lra].
Defined.

(** X8: [update_state] is all or nothing.  It returns normally exactly when
    [dynamics] returns and [adaptation_derivatives] has two entries, and
    then only the state attribute has changed; if it raises, the boat is
    exactly as before the call. *)
Theorem update_state_atomic (control ad : list R) (dt : R) (b : Boat) :
  (fst (update_state control ad dt b) = Ok tt
   <-> (exists d, dynamics b control = Ok d) /\ length ad = 2%nat)
  /\ (forall e, fst (update_state control ad dt b) = Raise e ->
                snd (update_state control ad dt b) = b)
  /\ class_of (snd (update_state control ad dt b)) = class_of b
  /\ params (snd (update_state control ad dt b)) = params b
  /\ wind_field (snd (update_state control ad dt b)) = wind_field b.
Proof.
  split; [split|split].
  - intros H.
    destruct (update_state control ad dt b) as [r b'] eqn:E.
    cbn [fst] in H. subst r.
    destruct (update_state_inv control ad dt b b' E)
      as (d0&d1&d2&d3&d4&d5&e0&e1&Hd&->&_).
    split; [eexists; exact Hd | reflexivity].
  - intros [[d Hd] Ha]. rewrite update_state_unfold, Hd. cbn [fst].
    apply update_good_length.
    rewrite length_app, (dynamics_length b control d Hd), Ha. reflexivity.
  - intros e. apply update_state_raise_unchanged.
  - rewrite update_state_unfold.
    destruct (dynamics b control); repeat split.
Qed.

Lemma update_state_atomic_witness :
  fst (update_state [1; 1] [0; 0] 1 coasting_boat) = Ok tt
  /\ snd (update_state [1] [0; 0] 1 coasting_boat) = coasting_boat.
Proof.
  split.
  - apply (update_state_atomic [1; 1] [0; 0] 1 coasting_boat).
    split; [eexists; reflexivity | reflexivity].
  - apply (update_state_atomic [1] [0; 0] 1 coasting_boat) with IndexError.
    reflexivity.
Defined.

(** *** Invariants along a simulation run *)

Lemma trajectory_Forall (P : Boat -> Prop)
  (Q : list R * list R * R -> Prop) (PS : BoatState -> Prop) :
  (forall control ad dt b b',
      P b -> Q (control, ad, dt) ->
      update_state control ad dt b = (Ok tt, b') ->
      P b' /\ PS (state b')) ->
  forall steps b,
    P b -> Forall Q steps -> Forall PS (trajectory steps b).
Proof.
  intros Hstep steps.
  induction steps as [|[[control ad] dt] rest IH]; intros b Hb Hq;
    cbn [trajectory]; [constructor|].
  apply Forall_cons_iff in Hq. destruct Hq as [Hq Hrest].
  destruct (update_state control ad dt b) as [[[]|e] b'] eqn:E;
    [|constructor].
  destruct (Hstep control ad dt b b' Hb Hq E) as [Hb' Hs].
  constructor; [exact Hs | now apply IH].
Qed.

(** X9: every state a simulation run reaches has its heading wrapped:
    [psi] lies in [-pi, pi], whatever the boat, the controls and the
    steps, and the run has at most one state per input. *)
Theorem trajectory_psi_wrapped (steps : list (list R * list R * R))
  (b : Boat) :
  Forall (fun s => - PI <= psi s <= PI) (trajectory steps b)
  /\ (length (trajectory steps b) <= length steps)%nat.
Proof.
  split.
  - apply (trajectory_Forall (fun _ => True) (fun _ => True));
      [|exact I|apply Forall_forall; intros; exact I].
    intros control ad dt b0 b' _ _ E. split; [exact I|].
    destruct (update_state_inv control ad dt b0 b' E)
      as (d0&d1&d2&d3&d4&d5&e0&e1&_&_&->).
    cbn [set_state state psi].
    pose proof (wrap_angle_range (psi (state b0) + d2 * dt)). lra.
  - revert b. induction steps as [|[[control ad] dt] rest IH]; intros b;
      cbn [trajectory length]; [lia|].
    destruct (update_state control ad dt b) as [[[]|e] b'];
      cbn [length]; [specialize (IH b')|]; lia.
Qed.

(** X10: a differential-thrust boat without a wind field that has no
    lateral velocity never gets one: [Vy] is 0 in every state of every
    run, whatever the thrusts. *)
Theorem differential_no_sideslip (steps : list (list R * list R * R))
  (b : Boat) :
  class_of b = DifferentialThrustBoat ->
  wind_field b = None ->
  Vy (state b) = 0 ->
  Forall (fun s => Vy s = 0) (trajectory steps b).
Proof.
  intros Hc Hw Hv.
  apply (trajectory_Forall
           (fun b => class_of b = DifferentialThrustBoat
                     /\ wind_field b = None /\ Vy (state b) = 0)
           (fun _ => True));
    [|now repeat split|apply Forall_forall; intros; exact I].
  clear. intros control ad dt b b' (Hc & Hw & Hv) _ E.
  destruct (update_state_inv control ad dt b b' E)
    as (d0&d1&d2&d3&d4&d5&e0&e1&Hd&_&->).
  cbn [set_state state class_of wind_field Vy].
  destruct (dynamics_inv b control _ Hd)
    as (c0 & c1 & Fx & Fy & M & _ & _ & Hk & Hdiff & _).
  destruct (Hdiff Hc) as (_ & -> & _).
  destruct (kinematics_inv b _ _ _ _ Hk)
    as (D0 & D1 & D2 & Fsx & Fsy & _ & _ & _ & Hs & Hlist).
  destruct (Hs Hw) as [_ ->].
  injection Hlist as _ _ _ _ -> _.
  assert (Vy (state b) + ((0 + 0) / mass (params b) - D1 * Vy (state b)) * dt
          = 0) by (rewrite Hv; unfold Rdiv; ring).
  repeat split; assumption.
Qed.

Lemma differential_no_sideslip_witness :
  Forall (fun s => Vy s = 0)
         (trajectory [([1; 2], [0; 0], 1); ([3; 1], [0; 0], 1)]
                     coasting_boat).
Proof.
  apply (differential_no_sideslip _ coasting_boat); reflexivity.
Defined.

(** X11: with equal thrusts on both sides a differential-thrust boat that
    is not turning never starts to turn: along every run whose controls
    all start with two equal entries, [omega] stays 0 (the inertia being
    non-zero).  This holds with or without wind. *)
Theorem differential_equal_thrust_straight
  (steps : list (list R * list R * R)) (b : Boat) :
  class_of b = DifferentialThrustBoat ->
  inertia (params b) <> 0 ->
  omega (state b) = 0 ->
  Forall (fun step => exists a rest, fst (fst step) = a :: a :: rest) steps ->
  Forall (fun s => omega s = 0) (trajectory steps b).
Proof.
  intros Hc _ Ho Hsteps.
  apply (trajectory_Forall
           (fun b => class_of b = DifferentialThrustBoat
                     /\ omega (state b) = 0)
           (fun step => exists a rest, fst (fst step) = a :: a :: rest));
    [|now split|exact Hsteps].
  clear b Hc Ho Hsteps.
  intros control ad dt b b' (Hc & Ho) (a & rest & Hctl) E.
  cbn [fst] in Hctl. subst control.
  destruct (update_state_inv _ ad dt b b' E)
    as (d0&d1&d2&d3&d4&d5&e0&e1&Hd&_&->).
  cbn [set_state state class_of omega].
  destruct (dynamics_inv b _ _ Hd)
    as (c0 & c1 & Fx & Fy & M & H0 & H1 & Hk & Hdiff & _).
  cbv [getitem nth_error] in H0, H1.
  injection H0 as <-. injection H1 as <-.
  destruct (Hdiff Hc) as (_ & _ & ->).
  destruct (kinematics_inv b _ _ _ _ Hk)
    as (D0 & D1 & D2 & Fsx & Fsy & _ & _ & _ & _ & Hlist).
  injection Hlist as _ _ _ _ _ ->.
  assert (Hom : omega (state b)
                + (L (params b) * (a - a) / inertia (params b)
                   - D2 * omega (state b)) * dt = 0)
    by (rewrite Ho; unfold Rdiv; ring).
  repeat split; assumption.
Qed.

Lemma differential_equal_thrust_straight_witness :
  Forall (fun s => omega s = 0)
         (trajectory [([1; 1], [0; 0], 1); ([3; 3], [0; 0], 1)]
                     coasting_boat).
Proof.
  apply (differential_equal_thrust_straight _ coasting_boat).
  - reflexivity.
  - simpl. lra.
  - reflexivity.
  - repeat constructor; do 2 eexists; reflexivity.
Defined.



(** X13: the boat model is invariant under translation: moving the boat
    to another position leaves the [dynamics] output unchanged, provided
    the wind field (if there is one) reports the same wind there. *)
Theorem dynamics_translation_invariant (b : Boat) (control : list R)
  (x' y' : R) :
  match wind_field b with
  | None => True
  | Some wf => get_wind wf [x'; y']
               = get_wind wf [x (state b); y (state b)]
  end ->
  dynamics (set_state b (set_y (set_x (state b) x') y')) control
  = dynamics b control.
Proof.
  intros Hw.
  unfold dynamics, Boat_dynamics, DifferentialThrustBoat_dynamics,
    SteerableThrustBoat_dynamics, _kinematics.
  destruct b as [c s p w]. cbn [wind_field state] in Hw.
  cbn [set_state set_x set_y class_of state params wind_field
       x y psi Vx Vy omega].
  destruct w as [wf|]; [rewrite Hw|]; reflexivity.
Qed.

Lemma dynamics_translation_invariant_witness :
  dynamics (set_state (sailing_boat (Some still_air))
              (set_y (set_x (state (sailing_boat (Some still_air))) 5) 7))
           [1; 2]
  = dynamics (sailing_boat (Some still_air)) [1; 2].
Proof.
  apply (dynamics_translation_invariant
           (sailing_boat (Some still_air)) [1; 2] 5 7).
  reflexivity.
Defined.

(* ================================================================== *)
(** ** Further properties of the cart-pole model                       *)
(* ================================================================== *)

(** *** Equilibrium, symmetry and the divisors *)

(** Equality of two returned vectors, entry by entry, by [ring]. *)
Ltac vector_ring :=
  apply f_equal;
  repeat (apply f_equal2; [unfold Rdiv; ring|]);
  reflexivity.

Lemma cartpole_dynamics_upright (p : cartpole.CartPoleParams) (x : R) :
  cartpole.dynamics p [x; 0; 0; 0] 0 = Ok [0; 0; 0; 0].
Proof.
  cbn [cartpole.dynamics]. rewrite sin_0, cos_0.
  vector_ring.
Qed.

(** X14: the upright rest position is a fixed point.  For a positive cart
    mass, a non-negative pole mass and a positive half-length, with cart
    and pole at rest and the pole upright (angle 0), [dynamics] at force 0
    is the zero vector wherever the cart stands, and [update] with force 0
    leaves the state as it is for every [dt] (given a non-negative
    [max_force]). *)
Theorem rest_positions_fixed (p : cartpole.CartPoleParams) (x dt : R) :
  0 < cartpole.m_cart p -> 0 <= cartpole.m_pole p -> 0 < cartpole.l p ->
  0 <= cartpole.max_force p ->
  cartpole.dynamics p [x; 0; 0; 0] 0 = Ok [0; 0; 0; 0]
  /\ cartpole.update 0 dt (cartpole.mkCartPole [x; 0; 0; 0] p)
     = (Ok tt, cartpole.mkCartPole [x; 0; 0; 0] p).
Proof.
  intros _ _ _ Hm. pose proof PI_RGT_0 as Hpi.
  assert (Hc : np.clip 0 (- cartpole.max_force p) (cartpole.max_force p) = 0)
    by (apply clip_inside; lra).
  split; [apply cartpole_dynamics_upright|].
  rewrite (cartpole_update_4 p x 0 0 0 0 dt 0 0 0 0)
    by (rewrite Hc; apply cartpole_dynamics_upright).
  do 2 f_equal. f_equal; [ring|]. f_equal; [ring|].
  f_equal; [|f_equal; ring].
  rewrite wrap_angle_id; lra.
Qed.

Lemma rest_positions_fixed_witness :
  cartpole.update 0 1
    (cartpole.__init__ [2; 0; 0; 0] None)
  = (Ok tt, cartpole.__init__ [2; 0; 0; 0] None).
Proof.
  apply (rest_positions_fixed cartpole.CartPoleParams_default 2 1);
    simpl; lra.
Defined.

(** X15: the model is mirror symmetric and does not depend on where the
    cart stands: negating the cart velocity, the pole angle, the pole rate
    and the force (at any cart position) negates all four derivatives. *)
Theorem dynamics_mirror (p : cartpole.CartPoleParams)
  (x x' x_dot theta theta_dot f : R) :
  exists d0 d1 d2 d3,
    cartpole.dynamics p [x; x_dot; theta; theta_dot] f = Ok [d0; d1; d2; d3]
    /\ cartpole.dynamics p [x'; - x_dot; - theta; - theta_dot] (- f)
       = Ok [- d0; - d1; - d2; - d3].
Proof.
  cbn [cartpole.dynamics]. do 4 eexists. split; [reflexivity|].
  rewrite sin_neg, cos_neg. vector_ring.
Qed.

(** X16: for a positive cart mass, a non-negative pole mass and a positive
    half-length neither divisor of [dynamics] vanishes, at any pole
    angle: the total mass and
    [l * (4/3 - m_pole * cos(theta)^2 / total_mass)] are both positive. *)
Theorem dynamics_divisors_positive (p : cartpole.CartPoleParams)
  (theta : R) :
  0 < cartpole.m_cart p -> 0 <= cartpole.m_pole p -> 0 < cartpole.l p ->
  0 < cartpole.m_cart p + cartpole.m_pole p
  /\ 0 < cartpole.l p
         * (4 / 3 - cartpole.m_pole p * cos theta ^ 2
                    / (cartpole.m_cart p + cartpole.m_pole p)).
Proof.
  intros Hmc Hmp Hl.
  set (mc := cartpole.m_cart p) in *. set (mp := cartpole.m_pole p) in *.
  set (len := cartpole.l p) in *.
  pose proof (sin2_cos2 theta) as Hsc. unfold Rsqr in Hsc.
  set (c := cos theta) in *. set (s := sin theta) in *.
  assert (Hc2 : 0 <= c * c <= 1) by nra.
  assert (Htm : 0 < mc + mp) by lra.
  split; [assumption|].
  assert (Hq : 0 < 4 * (mc + mp) - 3 * mp * (c * c)) by nra.
  replace (len * (4 / 3 - mp * c ^ 2 / (mc + mp)))
    with (len * (4 * (mc + mp) - 3 * mp * (c * c)) * / (3 * (mc + mp)))
    by (field; lra).
  apply Rmult_lt_0_compat.
  - apply Rmult_lt_0_compat; assumption.
  - apply Rinv_0_lt_compat. lra.
Qed.

Lemma dynamics_divisors_positive_witness :
  0 < cartpole.m_cart cartpole.CartPoleParams_default
      + cartpole.m_pole cartpole.CartPoleParams_default
  /\ 0 < cartpole.l cartpole.CartPoleParams_default
         * (4 / 3 - cartpole.m_pole cartpole.CartPoleParams_default
                    * cos 2 ^ 2
                    / (cartpole.m_cart cartpole.CartPoleParams_default
                       + cartpole.m_pole cartpole.CartPoleParams_default)).
Proof.
  apply (dynamics_divisors_positive cartpole.CartPoleParams_default 2);
    simpl; lra.
Defined.

(** *** [CartPole.update]: malformed states and the saturation law *)

Lemma cartpole_update_bad_shape (c : cartpole.CartPole) (f dt : R) :
  length (cartpole.state c) <> 4%nat ->
  cartpole.update f dt c = (Raise ValueError, c).
Proof.
  intros Hs. unfold cartpole.update, mbind, this, lift.
  now rewrite cartpole_dynamics_bad_shape.
Qed.

(** X17: [update] returns normally exactly when the state has four
    entries; otherwise it raises [ValueError] and the cart-pole is exactly
    as before the call, whatever the force and [dt]. *)
Theorem cartpole_update_returns_iff (c : cartpole.CartPole) (f dt : R) :
  (fst (cartpole.update f dt c) = Ok tt
   <-> length (cartpole.state c) = 4%nat)
  /\ (length (cartpole.state c) <> 4%nat ->
      cartpole.update f dt c = (Raise ValueError, c))
  /\ cartpole.params (snd (cartpole.update f dt c)) = cartpole.params c
  /\ length (cartpole.state (snd (cartpole.update f dt c)))
     = length (cartpole.state c).
Proof.
  destruct (Nat.eq_dec (length (cartpole.state c)) 4) as [Hs|Hs].
  - destruct (cartpole_update_returns c f dt Hs)
      as (x & xd & th & thd & E & _).
    rewrite E. cbn [fst snd cartpole.params cartpole.state].
    repeat split; try tauto. now rewrite Hs.
  - rewrite (cartpole_update_bad_shape c f dt Hs). cbn [fst snd].
    repeat split; try tauto; discriminate.
Qed.

Lemma cartpole_update_returns_iff_witness :
  cartpole.update 5 1 (cartpole.__init__ [0; 0; 0] None)
  = (Raise ValueError, cartpole.__init__ [0; 0; 0] None).
Proof.
  apply (cartpole_update_returns_iff
           (cartpole.__init__ [0; 0; 0] None) 5 1).
  simpl. lia.
Defined.

Lemma cartpole_update_clip (c : cartpole.CartPole) (f f' dt : R) :
  np.clip f (- cartpole.max_force (cartpole.params c))
            (cartpole.max_force (cartpole.params c))
  = np.clip f' (- cartpole.max_force (cartpole.params c))
               (cartpole.max_force (cartpole.params c)) ->
  cartpole.update f dt c = cartpole.update f' dt c.
Proof.
  intros H. unfold cartpole.update, mbind, this. cbn beta iota.
  now rewrite H.
Qed.

(** X18: the saturation law in full, for a non-negative [max_force]:
    every force at or above [max_force] acts like [max_force], every force
    at or below [-max_force] like [-max_force], and a force inside the
    limits is passed to [dynamics] unchanged. *)
Theorem update_saturation_law (c : cartpole.CartPole) (f dt : R) :
  let m := cartpole.max_force (cartpole.params c) in
  0 <= m ->
  (m <= f -> cartpole.update f dt c = cartpole.update m dt c)
  /\ (f <= - m -> cartpole.update f dt c = cartpole.update (- m) dt c)
  /\ (- m <= f <= m -> np.clip f (- m) m = f).
Proof.
  cbv zeta. intros Hm. split; [|split].
  - intros Hf. apply cartpole_update_clip.
    rewrite (clip_above f) by assumption. now rewrite clip_at_limit.
  - intros Hf. apply cartpole_update_clip.
    rewrite (clip_below f) by assumption.
    rewrite clip_inside; [reflexivity | lra].
  - apply clip_inside.
Qed.

Lemma update_saturation_law_witness :
  cartpole.update (- 1000) 1 (cartpole.__init__ [0; 0; 1; 0] None)
  = cartpole.update (- cartpole.max_force cartpole.CartPoleParams_default)
      1 (cartpole.__init__ [0; 0; 1; 0] None)
  /\ np.clip 5 (- cartpole.max_force cartpole.CartPoleParams_default)
        (cartpole.max_force cartpole.CartPoleParams_default) = 5.
Proof.
  destruct (update_saturation_law
              (cartpole.__init__ [0; 0; 1; 0] None) (- 1000) 1)
    as (_ & H2 & _); [simpl; lra|].
  destruct (update_saturation_law
              (cartpole.__init__ [0; 0; 1; 0] None) 5 1)
    as (_ & _ & H3); [simpl; lra|].
  split.
  - apply H2. simpl. lra.
  - apply H3. simpl. lra.
Defined.

(** *** [dynamics_batch] outside the documented shapes *)

Lemma broadcast_singleton_l (op : R -> R -> R) (a : R) (v : list R) :
  np.broadcast op [a] v = Ok (map (fun b => op a b) v).
Proof. destruct v as [|b [|b' v]]; reflexivity. Qed.

Lemma broadcast_singleton_r (op : R -> R -> R) (u : list R) (b : R) :
  np.broadcast op u [b] = Ok (map (fun a => op a b) u).
Proof. destruct u as [|a [|a' u]]; reflexivity. Qed.

Lemma broadcast_mismatch (op : R -> R -> R) (u v : list R) :
  length u <> length v -> length u <> 1%nat -> length v <> 1%nat ->
  np.broadcast op u v = Raise ValueError.
Proof.
  intros Huv Hu Hv. unfold np.broadcast.
  destruct (Nat.eqb_spec (length u) (length v)); [contradiction|].
  destruct u as [|a [|a' u]]; destruct v as [|b [|b' v]];
    try reflexivity; cbn in Hu, Hv; lia.
Qed.

Lemma column_map {X : Type} (gs : X -> list R) (rows : list X) (k : nat) :
  Forall (fun e => (k < length (gs e))%nat) rows ->
  np.column (map gs rows) k = Ok (map (fun e => nth k (gs e) 0) rows).
Proof.
  intros H. induction H as [|e rest He _ IH]; [reflexivity|].
  cbn [np.column map]. rewrite IH. unfold getitem.
  rewrite (nth_error_nth' (gs e) 0 He). reflexivity.
Qed.

Lemma column_raise (states : list (list R)) (k : nat) (e : exn) :
  np.column states k = Raise e -> e = IndexError.
Proof.
  induction states as [|row rest IH]; [discriminate|].
  cbn [np.column].
  destruct (getitem row k) eqn:G;
    [|apply getitem_raise in G; cbn [bind]; intros [= <-]; apply G].
  cbn [bind]. destruct (np.column rest k); [discriminate|].
  cbn [bind]. intros [= <-]. now apply IH.
Qed.

Lemma column_short (states : list (list R)) (k : nat) :
  Exists (fun r => (length r <= k)%nat) states ->
  np.column states k = Raise IndexError.
Proof.
  intros H. induction H as [row rest Hr | row rest _ IH]; cbn [np.column].
  - unfold getitem.
    destruct (nth_error row k) eqn:E; [|reflexivity].
    apply nth_error_None in Hr. congruence.
  - rewrite IH. destruct (getitem row k) eqn:G; [reflexivity|].
    apply getitem_raise in G. destruct G as [-> _]. reflexivity.
Qed.

(** The batch over rows at least four wide, for any force array that adds
    to a length-N array as the per-row force [gf] would. *)
Lemma dynamics_batch_core {X : Type} (p : cartpole.CartPoleParams)
  (rows : list X) (gs : X -> list R) (gf : X -> R) (forces : list R) :
  Forall (fun e => (4 <= length (gs e))%nat) rows ->
  (forall g : X -> R,
      np.broadcast Rplus forces (map g rows)
      = Ok (map (fun e => gf e + g e) rows)) ->
  exists h : list R -> R -> list R,
    cartpole.dynamics_batch p (map gs rows) forces
    = Ok (map (fun e => h (gs e) (gf e)) rows)
    /\ forall s f, (4 <= length s)%nat ->
                   cartpole.dynamics p (firstn 4 s) f = Ok (h s f).
Proof.
  intros Hrows Hf.
  exists (fun s f => match cartpole.dynamics p (firstn 4 s) f with
                     | Ok row => row
                     | Raise _ => []
                     end).
  split.
  - unfold cartpole.dynamics_batch.
    rewrite !column_map
      by (eapply Forall_impl; [|exact Hrows]; cbn beta; intros; lia).
    cbn [bind]. unfold np.scalar_l, np.scalar_r.
    rewrite ?map_map. rewrite broadcast_map. cbn [bind].
    rewrite Hf. cbn [bind].
    repeat (rewrite ?map_map; rewrite broadcast_map; cbn [bind]).
    rewrite ?map_map. rewrite stack_last_map.
    f_equal. apply map_ext_in. intros e He.
    rewrite Forall_forall in Hrows. specialize (Hrows e He).
    destruct (gs e) as [|a0 [|a1 [|a2 [|a3 rest]]]];
      cbn [length] in Hrows; try lia.
    reflexivity.
  - intros s f Hs.
    do 4 (destruct s as [|? s]; [cbn in Hs; lia|]).
    reflexivity.
Qed.

(** X19: a forces array holding a single force is broadcast over the
    batch: on an N x 4 array of states, [dynamics_batch] with forces [[f]]
    returns N rows, row [i] being [dynamics(params, states[i], f)]. *)
Theorem dynamics_batch_single_force (p : cartpole.CartPoleParams)
  (states : list (list R)) (f : R) :
  Forall (fun r => length r = 4%nat) states ->
  exists out,
    cartpole.dynamics_batch p states [f] = Ok out
    /\ length out = length states
    /\ forall i s,
        nth_error states i = Some s ->
        exists row, nth_error out i = Some row
                    /\ cartpole.dynamics p s f = Ok row.
Proof.
  intros Hrows.
  destruct (dynamics_batch_core p states (fun r => r) (fun _ => f) [f])
    as (h & Hb & Hh).
  - eapply Forall_impl; [|exact Hrows]. cbn beta. intros r ->. lia.
  - intros g. rewrite broadcast_singleton_l, map_map. reflexivity.
  - rewrite map_id in Hb.
    exists (map (fun e => h e f) states).
    split; [exact Hb|]. split; [apply length_map|].
    intros i s Hs. exists (h s f). split.
    + rewrite nth_error_map, Hs. reflexivity.
    + rewrite Forall_forall in Hrows.
      assert (Hl : length s = 4%nat)
        by (apply Hrows; eapply nth_error_In; eassumption).
      rewrite <- (Hh s f) by lia.
      rewrite firstn_all2 by lia. reflexivity.
Qed.

Lemma dynamics_batch_single_force_witness :
  exists out,
    cartpole.dynamics_batch default_params
      [[0; 0; 0; 0]; [1; 2; 3; 4]] [5] = Ok out
    /\ exists row, nth_error out 1 = Some row
                   /\ cartpole.dynamics default_params [1; 2; 3; 4] 5
                      = Ok row.
Proof.
  destruct (dynamics_batch_single_force default_params
              [[0; 0; 0; 0]; [1; 2; 3; 4]] 5)
    as (out & Hout & _ & Hrow); [repeat constructor|].
  exists out. split; [assumption|].
  apply (Hrow 1%nat). reflexivity.
Defined.

(** X20: on states wider than four columns [dynamics_batch] silently uses
    the first four entries of each row, where the scalar [dynamics] on
    such a row raises [ValueError]. *)
Theorem dynamics_batch_wide_rows (p : cartpole.CartPoleParams)
  (states : list (list R)) (forces : list R) :
  Forall (fun r => (4 <= length r)%nat) states ->
  length forces = length states ->
  exists out,
    cartpole.dynamics_batch p states forces = Ok out
    /\ length out = length states
    /\ forall i s f,
        nth_error states i = Some s -> nth_error forces i = Some f ->
        (exists row, nth_error out i = Some row
                     /\ cartpole.dynamics p (firstn 4 s) f = Ok row)
        /\ ((4 < length s)%nat ->
            cartpole.dynamics p s f = Raise ValueError).
Proof.
  intros Hrows Hlen.
  pose proof (combine_snd_map states forces Hlen) as Hforces.
  assert (Hstates : map fst (combine states forces) = states).
  { rewrite <- (map_id states) at 2.
    symmetry. exact (combine_fst_map (fun r => r) states forces Hlen). }
  destruct (dynamics_batch_core p (combine states forces) fst snd forces)
    as (h & Hb & Hh).
  - apply Forall_forall. intros [s f] Hin. apply in_combine_l in Hin.
    rewrite Forall_forall in Hrows. now apply Hrows.
  - intros g. rewrite Hforces at 1. apply broadcast_map.
  - rewrite Hstates in Hb.
    exists (map (fun e => h (fst e) (snd e)) (combine states forces)).
    split; [exact Hb|]. split.
    + rewrite length_map, length_combine, Hlen. apply Nat.min_id.
    + intros i s f Hs Hf. split.
      * exists (h s f). split.
        -- rewrite nth_error_map, (nth_error_combine _ _ _ _ _ Hs Hf).
           reflexivity.
        -- apply Hh. rewrite Forall_forall in Hrows. apply Hrows.
           eapply nth_error_In; eassumption.
      * intros Hw. apply cartpole_dynamics_bad_shape. lia.
Qed.

Lemma dynamics_batch_wide_rows_witness :
  exists out,
    cartpole.dynamics_batch default_params [[1; 2; 3; 4; 9]] [5] = Ok out
    /\ (exists row, nth_error out 0 = Some row
                    /\ cartpole.dynamics default_params [1; 2; 3; 4] 5
                       = Ok row)
    /\ cartpole.dynamics default_params [1; 2; 3; 4; 9] 5
       = Raise ValueError.
Proof.
  destruct (dynamics_batch_wide_rows default_params [[1; 2; 3; 4; 9]] [5])
    as (out & Hout & _ & Hrow);
    [repeat constructor; simpl; lia | reflexivity |].
  exists out. split; [assumption|].
  destruct (Hrow 0%nat [1; 2; 3; 4; 9] 5 eq_refl eq_refl) as [H1 H2].
  split; [exact H1|]. apply H2. simpl. lia.
Defined.

(** X21: shape errors of [dynamics_batch].  A row with fewer than four
    entries makes it raise [IndexError]; with rows of at least four
    entries, a forces array whose length is neither the number of rows nor
    1 makes it raise [ValueError]. *)
Theorem dynamics_batch_shape_errors (p : cartpole.CartPoleParams)
  (states : list (list R)) (forces : list R) :
  (Exists (fun r => (length r < 4)%nat) states ->
   cartpole.dynamics_batch p states forces = Raise IndexError)
  /\ (Forall (fun r => (4 <= length r)%nat) states ->
      length forces <> length states ->
      length forces <> 1%nat ->
      cartpole.dynamics_batch p states forces = Raise ValueError).
Proof.
  split.
  - intros Hshort.
    assert (H3 : np.column states 3 = Raise IndexError).
    { apply column_short. eapply Exists_impl; [|exact Hshort].
      cbn beta. intros; lia. }
    unfold cartpole.dynamics_batch.
    destruct (np.column states 0) as [c0|e0] eqn:E0;
      [|apply column_raise in E0; now subst].
    destruct (np.column states 1) as [c1|e1] eqn:E1;
      [|apply column_raise in E1; now subst].
    destruct (np.column states 2) as [c2|e2] eqn:E2;
      [|apply column_raise in E2; now subst].
    rewrite H3. reflexivity.
  - intros Hrows Hlen H1.
    unfold cartpole.dynamics_batch.
    rewrite <- (map_id states).
    rewrite !column_map
      by (eapply Forall_impl; [|exact Hrows]; cbn beta; intros; lia).
    cbn [bind]. unfold np.scalar_l, np.scalar_r.
    rewrite ?map_map. rewrite broadcast_map. cbn [bind].
    destruct (Nat.eq_dec (length states) 1) as [HN|HN].
    + destruct states as [|s [|s' rest]]; try discriminate HN.
      cbn [map].
      repeat (rewrite ?map_map;
              first [rewrite broadcast_singleton_l
                    | rewrite broadcast_singleton_r
                    | rewrite broadcast_map];
              cbn [bind map]).
      unfold np.stack_last. rewrite !length_map. cbn [length].
      destruct (Nat.eqb_spec 1 (length forces)) as [E|_];
        [congruence | reflexivity].
    + rewrite broadcast_mismatch; [reflexivity| | |];
        rewrite ?length_map; assumption.
Qed.

Lemma dynamics_batch_shape_errors_witness :
  cartpole.dynamics_batch default_params [[0; 0; 0; 0]; [1; 2; 3]] [0; 5]
  = Raise IndexError
  /\ cartpole.dynamics_batch default_params
       [[0; 0; 0; 0]; [1; 2; 3; 4]] [0; 5; 6]
     = Raise ValueError
  /\ cartpole.dynamics_batch default_params [[0; 0; 0; 0]] [0; 5]
     = Raise ValueError.
Proof.
  split; [|split].
  - apply (dynamics_batch_shape_errors default_params
             [[0; 0; 0; 0]; [1; 2; 3]] [0; 5]).
    right. left. simpl. lia.
  - apply (dynamics_batch_shape_errors default_params
             [[0; 0; 0; 0]; [1; 2; 3; 4]] [0; 5; 6]);
      [repeat constructor | simpl; lia | simpl; lia].
  - apply (dynamics_batch_shape_errors default_params
             [[0; 0; 0; 0]] [0; 5]);
      [repeat constructor | simpl; lia | simpl; lia].
Defined.
